(** * qobot: the probation ledger, the reconciler, the promotion scheduler
      and the member-update listener of [qobot.py], embedded in Rocq.

    The SQLite table [users_in_role (user TEXT, date TEXT)] is a list of rows
    in insertion order.  [init_db] declares two unique indexes on it, one on
    [user] and one on [date]; [INSERT] checks both.  A timestamp is the number
    of seconds since the epoch: [datetime()] renders it as fixed-width text
    ['YYYY-MM-DD HH:MM:SS'], whose text order is the order of the seconds, and
    ['-7 day'] subtracts [7 * 86400] of them.  The [user] column holds the
    decimal text of the identifier and [int(row['user'])] reads it back, so a
    row carries the identifier itself.

    Every mutation commits before it returns, so the table of the model is
    the committed table, and closing the connection changes nothing.  Python
    exceptions leave the effects that happened before them in place, so a
    computation maps a world to an outcome together with the world it left
    behind.

    A Python [set] is walked in an order the language does not fix.  The
    loops over a set walk [elements] of it; the statements below speak of the
    sets and of the records of each user, and hold whatever that order is. *)

From stdpp Require Import gmap list.
From Stdlib Require Import ZArith Lia.

Local Open Scope Z_scope.

(** ** Data *)

(** The exceptions the program can meet: the two the tasks catch
    ([discord.NotFound], [discord.HTTPException]) and the one SQLite raises
    when an index marked [UNIQUE] is violated ([sqlite3.IntegrityError]). *)
Inductive discord_exc : Set :=
  | NotFound
  | HTTPException.

Inductive exc : Set :=
  | Discord (e : discord_exc)
  | IntegrityError.

Inductive outcome (A : Type) : Type :=
  | Returned (a : A)
  | Raised (e : exc).
Arguments Returned {A} a.
Arguments Raised {A} e.

(** One row of [users_in_role]. *)
Record row : Set := Row { user : Z; date : Z }.

#[global] Instance row_eq_dec : EqDecision row.
Proof. solve_decision. Defined.

(** The two [logger.info] lines written by the ledger operations. *)
Inductive log_entry : Set :=
  | Removing (u : Z)
  | Adding (u : Z).

(** The role mutations a member accepts: [member.add_roles(role)] and
    [member.remove_roles(role)], by member and role identifier. *)
Inductive command : Set :=
  | add_roles (member role : Z)
  | remove_roles (member role : Z).

Record Member : Set := { member_id : Z; member_roles : list Z }.
Record Role : Set := { role_id : Z; members : list Member }.

(** A guild answers [fetch_role] with a role or with one of the platform's
    exceptions. *)
Inductive fetched : Set :=
  | Found (role : Role)
  | Failed (e : discord_exc).

Record Guild : Type := { fetch_role : Z -> fetched }.

(** What the program acts on: the committed table, the log file, the role
    mutations sent to the platform so far, and how many times the database
    has evaluated [datetime]. *)
Record world : Type := World {
  users_in_role : list row;
  journal : list log_entry;
  issued : list command;
  ticks : nat
}.

(** ** Computations *)

Definition M (A : Type) : Type := world -> outcome A * world.

Definition ret {A} (a : A) : M A := fun w => (Returned a, w).

Definition bind {A B} (m : M A) (k : A -> M B) : M B :=
  fun w =>
    match m w with
    | (Returned a, w') => k a w'
    | (Raised e, w') => (Raised e, w')
    end.

Definition await_fetch (f : fetched) : M Role :=
  fun w =>
    match f with
    | Found role => (Returned role, w)
    | Failed e => (Raised (Discord e), w)
    end.

Declare Scope prog_scope.
Delimit Scope prog_scope with prog.
Notation "'let*' x ':=' m 'in' k" := (bind m (fun x => k))
  (at level 10, x name, m at level 100, k at level 200) : prog_scope.
Notation "m ';;;' k" := (bind m (fun _ => k))
  (at level 100, right associativity) : prog_scope.
Local Open Scope prog_scope.

(** A [for] loop whose body may raise: the first exception ends the loop. *)
Fixpoint for_each {A} (l : list A) (body : A -> M unit) : M unit :=
  match l with
  | [] => ret tt
  | x :: l' => body x ;;; for_each l' body
  end.

(** [try: ... except (discord.NotFound, discord.HTTPException): pass] *)
Definition except_discord (m : M unit) : M unit :=
  fun w =>
    match m w with
    | (Raised (Discord _), w') => (Returned tt, w')
    | r => r
    end.

Definition outcome_of {A} (r : outcome A * world) : outcome A := fst r.
Definition world_of {A} (r : outcome A * world) : world := snd r.

Section Qobot.

(** [clock n] is the second in which the database evaluates [datetime] for
    the [n]-th time. *)
Variable clock : nat -> Z.

(** [QOBOTROLEID] and [QOBOTVALIDATEDROLEID]. *)
Variable role_id_monitored : Z.
Variable role_id_validated : Z.

(** *** The ledger *)

Definition logger_info (e : log_entry) : M unit :=
  fun w => (Returned tt,
            World (users_in_role w) (journal w ++ [e]) (issued w) (ticks w)).

(** [DELETE FROM users_in_role WHERE user = ?], committed. *)
Definition delete_where_user (u : Z) : M unit :=
  fun w => (Returned tt,
            World (filter (fun r => user r ≠ u) (users_in_role w))
                  (journal w) (issued w) (ticks w)).

(** [INSERT INTO users_in_role (user, date) VALUES (?, datetime())],
    committed; a row whose user or whose date is already in the table
    violates a unique index, and then nothing is inserted. *)
Definition insert_user_now (u : Z) : M unit :=
  fun w =>
    let now := clock (ticks w) in
    let w' := World (users_in_role w) (journal w) (issued w) (S (ticks w)) in
    if decide (u ∈ user <$> (users_in_role w)) then (Raised IntegrityError, w')
    else if decide (now ∈ date <$> (users_in_role w)) then (Raised IntegrityError, w')
    else (Returned tt,
          World (users_in_role w ++ [Row u now]) (journal w) (issued w) (S (ticks w))).

(** [SELECT user FROM users_in_role] *)
Definition select_user : M (list Z) :=
  fun w => (Returned (user <$> (users_in_role w)), w).

(** [SELECT user FROM users_in_role WHERE date < datetime('now', '-7 day')] *)
Definition select_user_where_date_before_7_day : M (list Z) :=
  fun w =>
    let bound := clock (ticks w) - 7 * 86400 in
    (Returned (user <$> (filter (fun r => date r < bound) (users_in_role w))),
     World (users_in_role w) (journal w) (issued w) (S (ticks w))).

(** The two mutations of the ledger log the operation, then run it. *)
Definition remove_from_db (u : Z) : M unit :=
  logger_info (Removing u) ;;;
  delete_where_user u.

Definition add_user_to_db (u : Z) : M unit :=
  logger_info (Adding u) ;;;
  insert_user_now u.

(** The reconciliation pass for one live set: the stale users are removed
    first, then the missing ones are added, one commit each. *)
Definition update_probation_users (users_in_probation : gset Z) : M unit :=
  let* rows := select_user in
  let users_in_db : gset Z := list_to_set rows in
  let missing_users := users_in_probation ∖ users_in_db in
  let stale_users := users_in_db ∖ users_in_probation in
  for_each (elements stale_users) remove_from_db ;;;
  for_each (elements missing_users) add_user_to_db.

Definition get_ready_users : M (gset Z) :=
  let* rows := select_user_where_date_before_7_day in
  ret (list_to_set rows).

(** *** The two periodic tasks, over [bot.guilds] *)

Definition scan_users (guilds : list Guild) : M unit :=
  for_each guilds (fun guild =>
    except_discord (
      let* role := await_fetch (fetch_role guild role_id_monitored) in
      let users_in_probation : gset Z := list_to_set (member_id <$> (members role)) in
      update_probation_users users_in_probation)).

(** The two role mutations are commented out in the source (the lines under
    [# XXX Dry run]), so the innermost branch only removes the record. *)
Definition promote_users (guilds : list Guild) : M unit :=
  let* ready_users := get_ready_users in
  if (size ready_users <? 1)%nat then ret tt
  else
    for_each guilds (fun guild =>
      except_discord (
        let* role := await_fetch (fetch_role guild role_id_monitored) in
        let* target_role := await_fetch (fetch_role guild role_id_validated) in
        for_each (members role) (fun member =>
          for_each (elements ready_users) (fun user_id =>
            if decide (member_id member = user_id)
            then remove_from_db user_id
            else ret tt)))).

(** *** The listener

    Roles are compared by identifier, so a role set is the set of its
    identifiers; [before.roles == after.roles] compares the two lists. *)

Definition on_member_update (before after : Member) : M unit :=
  if decide (member_roles before = member_roles after) then ret tt
  else
    let before_roles : gset Z := list_to_set (member_roles before) in
    let after_roles : gset Z := list_to_set (member_roles after) in
    let added_roles := after_roles ∖ before_roles in
    let removed_roles := before_roles ∖ after_roles in
    for_each (elements added_roles) (fun role =>
      if decide (role = role_id_monitored)
      then add_user_to_db (member_id after)
      else ret tt) ;;;
    for_each (elements removed_roles) (fun role =>
      if decide (role = role_id_monitored)
      then remove_from_db (member_id after)
      else ret tt).

(** ** Observations on a world *)

(** The tracked users, as [listAllUserIds] gives them. *)
Definition tracked (w : world) : gset Z := list_to_set (user <$> (users_in_role w)).

(** The records kept for one user. *)
Definition records_of (u : Z) (w : world) : list row :=
  filter (fun r => user r = u) (users_in_role w).

(** The timestamps the insertions of one pass for the live set [L] read: one
    reading of the clock for each live user that is not tracked. *)
Definition insertion_times (L : gset Z) (w : world) : list Z :=
  clock <$> seq (ticks w) (size (L ∖ tracked w)).

(** The member identifiers of a role, as [set([member.id for member in
    role.members])] collects them. *)
Definition member_ids (role : Role) : gset Z :=
  list_to_set (member_id <$> members role).

(** A user holds the monitored role in a guild: the guild answers the fetch
    with a role that lists the user. *)
Definition holds_monitored (guild : Guild) (u : Z) : Prop :=
  exists role, fetch_role guild role_id_monitored = Found role /\ u ∈ member_ids role.

(** The users a promotion cycle acts on in one guild: the members of the
    monitored role that are ready, when both roles are fetched. *)
Definition promoted_in (ready_users : gset Z) (guild : Guild) : gset Z :=
  match fetch_role guild role_id_monitored, fetch_role guild role_id_validated with
  | Found role, Found _ => member_ids role ∩ ready_users
  | _, _ => ∅
  end.

(** The users a promotion cycle acts on over all the guilds. *)
Definition promoted (ready_users : gset Z) (guilds : list Guild) : gset Z :=
  ⋃ (promoted_in ready_users <$> guilds).

(** From this world on every reading of the clock falls in a later second
    than the one before it and than every timestamp in the table. *)
Definition clock_fresh (w : world) : Prop :=
  (forall i j : nat, (ticks w <= i)%nat -> (i < j)%nat -> clock i < clock j) /\
  (forall r, r ∈ users_in_role w ->
             forall i : nat, (ticks w <= i)%nat -> date r < clock i).

(** The member set of the last guild of the list that answers the fetch of
    the monitored role, or [T] when none does. *)
Definition last_fetched (guilds : list Guild) (T : gset Z) : gset Z :=
  foldl (fun T guild =>
           match fetch_role guild role_id_monitored with
           | Found role => member_ids role
           | Failed _ => T
           end) T guilds.

End Qobot.

(** [w'] is [w] after the records of the users in [S] were removed and
    logged, with nothing else changed. *)
Definition removal (S : gset Z) (w w' : world) : Prop :=
  users_in_role w' = filter (fun r => user r ∉ S) (users_in_role w) /\
  issued w' = issued w /\
  ticks w' = ticks w /\
  (forall e, e ∈ journal w' <-> e ∈ journal w \/ exists u, u ∈ S /\ e = Removing u).

(** The two unique indexes of [init_db] hold of the table: no two rows share
    a user, and no two rows share a date. *)
Definition well_indexed (w : world) : Prop :=
  NoDup (user <$> users_in_role w) /\ NoDup (date <$> users_in_role w).

(** From [w] to [w'] the log only grew, and every user whose records changed
    has a line among the new ones. *)
Definition audited (w w' : world) : Prop :=
  exists new,
    journal w' = journal w ++ new /\
    forall u, records_of u w' <> records_of u w ->
              Adding u ∈ new \/ Removing u ∈ new.

(** ** Scenarios

    The inputs the statements below are tried on. *)

Module Scenario.

(** A clock on which every reading falls in a later second: the [n]-th
    reading is second [1000000 + n]. *)
Definition ticking : nat -> Z := fun n => 1000000 + Z.of_nat n.

(** A clock on which every reading falls in the same second. *)
Definition same_second : nat -> Z := fun _ => 1000000.

Definition monitored : Z := 7.
Definition validated : Z := 8.

Definition nobody : world := World [] [] [] 0.

(** User 42 entered probation eight days before second 1000000. *)
Definition eight_days : world := World [Row 42 (1000000 - 8 * 86400)] [] [] 0.

(** User 42 entered probation seven days before second 1000000, to the
    second. *)
Definition seven_days : world := World [Row 42 (1000000 - 7 * 86400)] [] [] 0.

(** The ledger [{2, 3, 4}]. *)
Definition ledger_234 : world := World [Row 2 10; Row 3 20; Row 4 30] [] [] 0.

Definition member (u : Z) (rs : list Z) : Member :=
  {| member_id := u; member_roles := rs |}.

(** A guild with the given holders of the monitored role and a validated
    role nobody holds; any other role is not found. *)
Definition guild_of (holders : list Z) : Guild :=
  {| fetch_role := fun rid =>
       if decide (rid = monitored)
       then Found {| role_id := monitored;
                     members := (fun u => member u [monitored]) <$> holders |}
       else if decide (rid = validated)
       then Found {| role_id := validated; members := [] |}
       else Failed NotFound |}.

(** A guild in which no role is found. *)
Definition guild_without_roles : Guild :=
  {| fetch_role := fun _ => Failed NotFound |}.

(** The ledger after user 42 was added to the empty one. *)
Definition just_added (clock : nat -> Z) : world :=
  world_of (add_user_to_db clock 42 nobody).

End Scenario.

(** A guild whose monitored role is found, with the given holders, and
    whose validated role is not. *)
Definition guild_without_validated (holders : list Z) : Guild :=
  {| fetch_role := fun rid =>
       if decide (rid = Scenario.monitored)
       then Found {| role_id := Scenario.monitored;
                     members := (fun u => Scenario.member u [Scenario.monitored])
                                  <$> holders |}
       else Failed HTTPException |}.

(** ** Facts *)

Lemma filter_agree {A} (P Q : A -> Prop)
    `{!forall x, Decision (P x), !forall x, Decision (Q x)} (l : list A) :
  (forall x, x ∈ l -> P x <-> Q x) -> filter P l = filter Q l.
Proof.
  induction l as [|a l IH]; intros Hag; [reflexivity|].
  assert (Ha : P a <-> Q a) by (apply Hag; left).
  assert (Hl : filter P l = filter Q l) by (apply IH; intros x Hx; apply Hag; now right).
  destruct (decide (P a)).
  - rewrite !filter_cons_True by tauto. now rewrite Hl.
  - rewrite !filter_cons_False by tauto. exact Hl.
Qed.

Lemma filter_none {A} (P : A -> Prop) `{!forall x, Decision (P x)} (l : list A) :
  (forall x, x ∈ l -> ~ P x) -> filter P l = [].
Proof.
  induction l as [|a l IH]; intros Hno; [reflexivity|].
  rewrite filter_cons_False by (apply Hno; left).
  apply IH. intros x Hx. apply Hno. now right.
Qed.

Section Ledger.

Variable clock : nat -> Z.

Lemma remove_from_db_run (u : Z) (w : world) :
  remove_from_db u w =
  (Returned tt,
   World (filter (fun r => user r ≠ u) (users_in_role w))
         (journal w ++ [Removing u]) (issued w) (ticks w)).
Proof. reflexivity. Qed.

Lemma add_user_to_db_accepted (u : Z) (w : world) :
  u ∉ user <$> users_in_role w ->
  clock (ticks w) ∉ date <$> users_in_role w ->
  add_user_to_db clock u w =
  (Returned tt,
   World (users_in_role w ++ [Row u (clock (ticks w))])
         (journal w ++ [Adding u]) (issued w) (S (ticks w))).
Proof.
  intros Hu Hd. unfold add_user_to_db, bind, logger_info, insert_user_now.
  cbn. rewrite !decide_False by assumption. reflexivity.
Qed.

Lemma add_user_to_db_rejected (u : Z) (w : world) :
  u ∈ user <$> users_in_role w \/ clock (ticks w) ∈ date <$> users_in_role w ->
  add_user_to_db clock u w =
  (Raised IntegrityError,
   World (users_in_role w) (journal w ++ [Adding u]) (issued w) (S (ticks w))).
Proof.
  intros H. unfold add_user_to_db, bind, logger_info, insert_user_now. cbn.
  destruct (decide (u ∈ user <$> users_in_role w)) as [|Hu]; [reflexivity|].
  destruct H as [H|H]; [contradiction|].
  rewrite decide_True by assumption. reflexivity.
Qed.

Lemma filter_other_users (u : Z) (l : list row) :
  u ∉ user <$> l -> filter (fun r => user r ≠ u) l = l.
Proof.
  induction l as [|r l IH]; intros Hu; [reflexivity|].
  rewrite fmap_cons, not_elem_of_cons in Hu. destruct Hu as [Hne Hu].
  rewrite filter_cons_True by congruence. now rewrite IH.
Qed.

Lemma elem_of_tracked (u : Z) (w : world) :
  u ∈ tracked w <-> u ∈ user <$> users_in_role w.
Proof. unfold tracked. apply elem_of_list_to_set. Qed.

Lemma records_of_nil (u : Z) (w : world) :
  records_of u w = [] <-> u ∉ tracked w.
Proof.
  rewrite elem_of_tracked. unfold records_of. split.
  - intros Hnil Hin. apply list_elem_of_fmap in Hin as (r & -> & Hr).
    exact (filter_nil_not_elem_of _ _ r Hnil eq_refl Hr).
  - intros Hu. apply filter_none. intros r Hr Heq. apply Hu.
    subst u. now apply list_elem_of_fmap_2.
Qed.

(** C9. Removing a user who has no record returns normally, leaves the table
    as it was and creates no record for the user. *)
Theorem remove_absent_is_noop (u : Z) (w : world) :
  u ∉ tracked w ->
  outcome_of (remove_from_db u w) = Returned tt /\
  users_in_role (world_of (remove_from_db u w)) = users_in_role w /\
  records_of u (world_of (remove_from_db u w)) = [].
Proof.
  intros Hu. rewrite remove_from_db_run.
  unfold outcome_of, world_of. cbn [fst snd users_in_role]. split; [reflexivity|].
  assert (Hl : filter (fun r => user r ≠ u) (users_in_role w) = users_in_role w)
    by (apply filter_other_users; rewrite <- elem_of_tracked; exact Hu).
  split; [exact Hl|].
  apply records_of_nil. unfold tracked. cbn [users_in_role]. rewrite Hl. exact Hu.
Qed.

(** C10. While some record carries the timestamp the database reads now,
    adding a different user raises the uniqueness error and inserts
    nothing. *)
Theorem add_same_second_rejected (u v : Z) (w : world) :
  u ≠ v ->
  Row v (clock (ticks w)) ∈ users_in_role w ->
  outcome_of (add_user_to_db clock u w) = Raised IntegrityError /\
  users_in_role (world_of (add_user_to_db clock u w)) = users_in_role w /\
  (u ∉ tracked w -> u ∉ tracked (world_of (add_user_to_db clock u w))).
Proof.
  intros _ Hrow.
  rewrite add_user_to_db_rejected.
  - unfold outcome_of, world_of, tracked. cbn [fst snd users_in_role]. auto.
  - right. apply list_elem_of_fmap. exists (Row v (clock (ticks w))). auto.
Qed.

(** C1, as the code has it.  Adding a user whose record exists raises the
    uniqueness error; the table is left as it was, so the one record of the
    user keeps its first timestamp. *)
Theorem add_existing_rejected (u d : Z) (w : world) :
  records_of u w = [Row u d] ->
  outcome_of (add_user_to_db clock u w) = Raised IntegrityError /\
  users_in_role (world_of (add_user_to_db clock u w)) = users_in_role w /\
  records_of u (world_of (add_user_to_db clock u w)) = [Row u d].
Proof.
  intros Hrec.
  assert (Hin : u ∈ user <$> users_in_role w).
  { apply elem_of_tracked. destruct (decide (u ∈ tracked w)) as [|Hn]; [assumption|].
    apply records_of_nil in Hn. congruence. }
  rewrite add_user_to_db_rejected by (left; exact Hin).
  unfold outcome_of, world_of, records_of in *. cbn [fst snd users_in_role]. auto.
Qed.

End Ledger.

Section Reconciler.

Variable clock : nat -> Z.
Variable role_id_monitored : Z.

Lemma for_each_remove_from_db (l : list Z) (w : world) :
  for_each l remove_from_db w =
  (Returned tt,
   World (filter (fun r => user r ∉ l) (users_in_role w))
         (journal w ++ (Removing <$> l)) (issued w) (ticks w)).
Proof.
  revert w. induction l as [|u l IH]; intros w.
  - cbn. unfold ret. destruct w as [t j i n]. cbn.
    rewrite app_nil_r. f_equal. f_equal.
    induction t as [|r t IHt]; [reflexivity|].
    rewrite filter_cons_True by apply not_elem_of_nil. now rewrite <- IHt.
  - cbn [for_each]. unfold bind at 1. rewrite remove_from_db_run.
    rewrite IH. cbn [users_in_role journal issued ticks].
    rewrite list_filter_filter, fmap_cons, <- app_assoc. cbn [app].
    f_equal. f_equal. apply list_filter_iff. intros r.
    rewrite not_elem_of_cons. tauto.
Qed.

Lemma for_each_add_user_to_db (us : list Z) (w : world) :
  NoDup us ->
  (forall u, u ∈ us -> u ∉ user <$> users_in_role w) ->
  NoDup (clock <$> seq (ticks w) (length us)) ->
  (forall d, d ∈ clock <$> seq (ticks w) (length us) ->
             d ∉ date <$> users_in_role w) ->
  for_each us (add_user_to_db clock) w =
  (Returned tt,
   World (users_in_role w ++
            zip_with Row us (clock <$> seq (ticks w) (length us)))
         (journal w ++ (Adding <$> us)) (issued w)
         (ticks w + length us)).
Proof.
  revert w. induction us as [|u us IH]; intros w Hnd Hus Hts Hds.
  - cbn. unfold ret. destruct w as [t j i n]. cbn.
    rewrite !app_nil_r, Nat.add_0_r. reflexivity.
  - cbn [for_each]. unfold bind at 1.
    cbn [length seq] in Hts, Hds. rewrite fmap_cons in Hts, Hds.
    apply NoDup_cons in Hnd as [Hu Hnd]. apply NoDup_cons in Hts as [Ht Hts].
    rewrite add_user_to_db_accepted.
    2:{ apply Hus. left. }
    2:{ apply Hds. left. }
    rewrite IH; cbn [users_in_role journal issued ticks]; try assumption.
    + cbn [length seq zip_with]. rewrite fmap_cons. cbn [zip_with].
      rewrite <- !app_assoc. cbn [app]. rewrite fmap_cons.
      f_equal. f_equal. lia.
    + intros u' Hu'. rewrite fmap_app, elem_of_app. intros [Hin|Hin].
      * revert Hin. apply Hus. now right.
      * cbn in Hin. apply list_elem_of_singleton in Hin. congruence.
    + intros d Hd. rewrite fmap_app, elem_of_app. intros [Hin|Hin].
      * revert Hin. apply Hds. now right.
      * cbn in Hin. apply list_elem_of_singleton in Hin. congruence.
Qed.

Lemma user_zip_with_Row (us ts : list Z) :
  length us = length ts -> user <$> zip_with Row us ts = us.
Proof.
  revert ts. induction us as [|u us IH]; intros [|t ts] Hlen;
    try discriminate; [reflexivity|].
  cbn. f_equal. apply IH. now injection Hlen.
Qed.

Lemma date_zip_with_Row (us ts : list Z) :
  length us = length ts -> date <$> zip_with Row us ts = ts.
Proof.
  revert ts. induction us as [|u us IH]; intros [|t ts] Hlen;
    try discriminate; [reflexivity|].
  cbn. f_equal. apply IH. now injection Hlen.
Qed.

(** The pass [update_probation_users] as one step on the world, when every
    timestamp it reads is free. *)
Lemma update_probation_users_run (L : gset Z) (w : world) :
  let T := tracked w in
  let times := clock <$> seq (ticks w) (size (L ∖ T)) in
  NoDup times ->
  (forall r, r ∈ users_in_role w -> user r ∈ L -> date r ∉ times) ->
  update_probation_users clock L w =
  (Returned tt,
   World (filter (fun r => user r ∈ L) (users_in_role w) ++
            zip_with Row (elements (L ∖ T)) times)
         (journal w ++ (Removing <$> elements (T ∖ L)) ++
            (Adding <$> elements (L ∖ T)))
         (issued w)
         (ticks w + size (L ∖ T))).
Proof.
  intros T times Hnd Hfree.
  unfold update_probation_users, select_user. unfold bind at 1.
  fold (tracked w). fold T. unfold bind.
  rewrite for_each_remove_from_db.
  assert (Hkeep : filter (fun r => user r ∉ elements (T ∖ L)) (users_in_role w)
                  = filter (fun r => user r ∈ L) (users_in_role w)).
  { apply filter_agree. intros r Hr.
    rewrite elem_of_elements, elem_of_difference.
    assert (user r ∈ T) by (apply elem_of_tracked, list_elem_of_fmap_2, Hr).
    destruct (decide (user r ∈ L)); tauto. }
  rewrite Hkeep.
  rewrite for_each_add_user_to_db; cbn [users_in_role journal issued ticks].
  - rewrite <- app_assoc. reflexivity.
  - apply NoDup_elements.
  - intros u Hu Hin. apply elem_of_elements, elem_of_difference in Hu as [_ Hu].
    apply Hu. apply list_elem_of_fmap in Hin as (r & -> & Hr).
    apply list_elem_of_filter in Hr as [_ Hr].
    apply elem_of_tracked. now apply list_elem_of_fmap_2.
  - exact Hnd.
  - intros d Hd Hin. apply list_elem_of_fmap in Hin as (r & -> & Hr).
    apply list_elem_of_filter in Hr as [HL Hr]. exact (Hfree r Hr HL Hd).
Qed.

Lemma tracked_app_zip (t : list row) (us ts : list Z) j i n :
  length us = length ts ->
  tracked (World (t ++ zip_with Row us ts) j i n) =
  list_to_set (user <$> t) ∪ list_to_set us.
Proof.
  intros Hlen. unfold tracked. cbn [users_in_role].
  rewrite fmap_app, list_to_set_app_L, user_zip_with_Row by exact Hlen.
  reflexivity.
Qed.

Lemma tracked_reconciled (L : gset Z) (w : world) (ts : list Z) j i n :
  length ts = size (L ∖ tracked w) ->
  tracked (World (filter (fun r => user r ∈ L) (users_in_role w) ++
                    zip_with Row (elements (L ∖ tracked w)) ts) j i n) = L.
Proof.
  intros Hlen. rewrite tracked_app_zip by (symmetry; exact Hlen).
  apply set_eq. intros u.
  rewrite elem_of_union, !elem_of_list_to_set, elem_of_elements,
    elem_of_difference, list_elem_of_fmap.
  split.
  - intros [(r & -> & Hr)|[Hu _]]; [|exact Hu].
    now apply list_elem_of_filter in Hr as [Hr _].
  - intros Hu. destruct (decide (u ∈ tracked w)) as [Hin|Hout]; [left|now right].
    apply elem_of_tracked, list_elem_of_fmap in Hin as (r & -> & Hr).
    exists r. split; [reflexivity|]. now apply list_elem_of_filter.
Qed.

Lemma user_of_zip_with_Row (r : row) (us ts : list Z) :
  r ∈ zip_with Row us ts -> user r ∈ us.
Proof.
  revert ts. induction us as [|a us IH]; intros [|t ts] Hr;
    try now apply not_elem_of_nil in Hr.
  cbn [zip_with] in Hr. apply elem_of_cons in Hr as [->|Hr]; [left|].
  right. exact (IH ts Hr).
Qed.

Lemma filter_zip_with_Row_absent (u : Z) (us ts : list Z) :
  u ∉ us -> filter (fun r => user r = u) (zip_with Row us ts) = [].
Proof.
  intros Hu. apply filter_none. intros r Hr Heq. apply Hu.
  subst u. exact (user_of_zip_with_Row r us ts Hr).
Qed.

Lemma filter_zip_with_Row_present (u : Z) (us ts : list Z) :
  NoDup us -> length us = length ts -> u ∈ us ->
  exists d, d ∈ ts /\ filter (fun r => user r = u) (zip_with Row us ts) = [Row u d].
Proof.
  revert ts. induction us as [|a us IH]; intros [|t ts] Hnd Hlen Hu;
    try discriminate; [now apply not_elem_of_nil in Hu|].
  apply NoDup_cons in Hnd as [Ha Hnd]. injection Hlen as Hlen.
  cbn [zip_with]. destruct (decide (a = u)) as [->|Hne].
  - exists t. split; [left|].
    rewrite filter_cons_True by reflexivity.
    now rewrite filter_zip_with_Row_absent.
  - apply elem_of_cons in Hu as [Hu|Hu]; [congruence|].
    destruct (IH ts Hnd Hlen Hu) as (d & Hd & Hf).
    exists d. split; [now right|].
    now rewrite filter_cons_False by (cbn; congruence).
Qed.

Lemma NoDup_clock_fresh (w : world) (n : nat) :
  clock_fresh clock w -> NoDup (clock <$> seq (ticks w) n).
Proof.
  intros [Hmono _]. apply NoDup_fmap_2_strong; [|apply NoDup_seq].
  intros i j Hi Hj Heq. apply elem_of_seq in Hi, Hj.
  destruct (Nat.lt_trichotomy i j) as [Hlt|[Heq'|Hgt]]; [|exact Heq'|].
  - pose proof (Hmono i j ltac:(lia) Hlt). lia.
  - pose proof (Hmono j i ltac:(lia) Hgt). lia.
Qed.

Lemma update_probation_users_fresh (L : gset Z) (w : world) :
  clock_fresh clock w ->
  exists w',
    update_probation_users clock L w = (Returned tt, w') /\
    tracked w' = L /\ clock_fresh clock w'.
Proof.
  intros Hfresh. pose proof Hfresh as [Hmono Hold].
  eexists. split; [|split].
  - apply update_probation_users_run.
    + now apply NoDup_clock_fresh.
    + intros r Hr _ Hin. apply list_elem_of_fmap in Hin as (i & Hd & Hi).
      apply elem_of_seq in Hi. pose proof (Hold r Hr i ltac:(lia)). lia.
  - apply tracked_reconciled. now rewrite length_fmap, length_seq.
  - split; cbn [users_in_role ticks].
    + intros i j Hi Hij. apply Hmono; lia.
    + intros r Hr i Hi. apply elem_of_app in Hr as [Hr|Hr].
      * apply list_elem_of_filter in Hr as [_ Hr]. apply Hold; [exact Hr|lia].
      * assert (Hd : date r ∈ date <$>
                  zip_with Row (elements (L ∖ tracked w))
                    (clock <$> seq (ticks w) (size (L ∖ tracked w))))
          by now apply list_elem_of_fmap_2.
        rewrite date_zip_with_Row in Hd by now rewrite length_fmap, length_seq.
        apply list_elem_of_fmap in Hd as (k & -> & Hk).
        apply elem_of_seq in Hk. apply Hmono; lia.
Qed.

Lemma scan_users_skip (g : Guild) (e : discord_exc) (w : world) :
  fetch_role g role_id_monitored = Failed e ->
  except_discord (
    let* role := await_fetch (fetch_role g role_id_monitored) in
    update_probation_users clock (list_to_set (member_id <$> members role))) w
  = (Returned tt, w).
Proof. intros Hf. unfold except_discord, bind, await_fetch. now rewrite Hf. Qed.

Lemma scan_users_cons (g : Guild) (gs : list Guild) (w : world) :
  scan_users clock role_id_monitored (g :: gs) w =
  match except_discord (
          let* role := await_fetch (fetch_role g role_id_monitored) in
          update_probation_users clock (list_to_set (member_id <$> members role))) w
  with
  | (Returned _, w') => scan_users clock role_id_monitored gs w'
  | (Raised e, w') => (Raised e, w')
  end.
Proof. reflexivity. Qed.

Lemma scan_users_fresh (gs : list Guild) (w : world) :
  clock_fresh clock w ->
  exists w',
    scan_users clock role_id_monitored gs w = (Returned tt, w') /\
    tracked w' = last_fetched role_id_monitored gs (tracked w) /\
    clock_fresh clock w'.
Proof.
  revert w. induction gs as [|g gs IH]; intros w Hfresh.
  - exists w. auto.
  - rewrite scan_users_cons. cbn [last_fetched foldl].
    destruct (fetch_role g role_id_monitored) as [role|e] eqn:Hf.
    + destruct (update_probation_users_fresh (member_ids role) w Hfresh)
        as (w1 & Hrun & Htr & Hfresh1).
      unfold except_discord, bind, await_fetch.
      unfold member_ids in Hrun. rewrite Hrun.
      destruct (IH w1 Hfresh1) as (w' & Hscan & Htr' & Hfresh').
      exists w'. rewrite Hscan, Htr', Htr. auto.
    + unfold except_discord, bind, await_fetch.
      destruct (IH w Hfresh) as (w' & Hscan & Htr' & Hfresh').
      exists w'. rewrite Hscan, Htr'. auto.
Qed.

Lemma for_each_app {A} (l1 l2 : list A) (body : A -> M unit) (w : world) :
  for_each (l1 ++ l2) body w = (for_each l1 body ;;; for_each l2 body) w.
Proof.
  revert w. induction l1 as [|x l1 IH]; intros w; [reflexivity|].
  cbn [app for_each]. unfold bind in *.
  destruct (body x w) as [[[]|e] w1]; [|reflexivity].
  apply IH.
Qed.

Lemma last_fetched_app (gs1 gs2 : list Guild) (T : gset Z) :
  last_fetched role_id_monitored (gs1 ++ gs2) T =
  last_fetched role_id_monitored gs2 (last_fetched role_id_monitored gs1 T).
Proof. unfold last_fetched. apply foldl_app. Qed.

Lemma last_fetched_all_failed (gs : list Guild) (T : gset Z) :
  (forall g, g ∈ gs -> exists e, fetch_role g role_id_monitored = Failed e) ->
  last_fetched role_id_monitored gs T = T.
Proof.
  revert T. induction gs as [|g gs IH]; intros T Hall; [reflexivity|].
  cbn [last_fetched foldl].
  destruct (Hall g ltac:(left)) as [e ->].
  apply IH. intros g' Hg'. apply Hall. now right.
Qed.

Lemma scan_users_app (gs1 gs2 : list Guild) (w : world) :
  scan_users clock role_id_monitored (gs1 ++ gs2) w =
  match scan_users clock role_id_monitored gs1 w with
  | (Returned _, w') => scan_users clock role_id_monitored gs2 w'
  | (Raised e, w') => (Raised e, w')
  end.
Proof. unfold scan_users. now rewrite for_each_app. Qed.

End Reconciler.

Section Promotion.

Variable clock : nat -> Z.
Variable role_id_monitored : Z.
Variable role_id_validated : Z.

Lemma removal_nothing (S : gset Z) (w : world) :
  (forall u, u ∉ S) -> removal S w w.
Proof.
  intros HS. repeat split; try tauto.
  - induction (users_in_role w) as [|r l IH]; [reflexivity|].
    rewrite filter_cons_True by apply HS. now rewrite <- IH.
  - intros [He|(u & Hu & _)]; [exact He|]. now apply HS in Hu.
Qed.

Lemma removal_then (S1 S2 S : gset Z) (w w1 w2 : world) :
  removal S1 w w1 -> removal S2 w1 w2 ->
  (forall u, u ∈ S <-> u ∈ S1 \/ u ∈ S2) ->
  removal S w w2.
Proof.
  intros (Ht1 & Hi1 & Hn1 & Hj1) (Ht2 & Hi2 & Hn2 & Hj2) HS.
  repeat split; try congruence.
  - rewrite Ht2, Ht1, list_filter_filter. apply list_filter_iff.
    intros r. rewrite HS. tauto.
  - rewrite Hj2, Hj1. intros [[He|(u & Hu & He)]|(u & Hu & He)]; [now left|right..];
      exists u; rewrite HS; tauto.
  - rewrite Hj2, Hj1. intros [He|(u & Hu & He)]; [tauto|].
    apply HS in Hu as [Hu|Hu]; [left; right|right]; now exists u.
Qed.

Lemma remove_from_db_removal (u : Z) (w : world) :
  removal {[u]} w (world_of (remove_from_db u w)).
Proof.
  rewrite remove_from_db_run. unfold world_of. cbn [snd].
  repeat split; cbn [users_in_role journal issued ticks].
  - apply list_filter_iff. intros r. now rewrite elem_of_singleton.
  - rewrite elem_of_app, list_elem_of_singleton. intros [He|He]; [now left|].
    right. exists u. now rewrite elem_of_singleton.
  - rewrite elem_of_app, list_elem_of_singleton.
    intros [He|(u' & Hu' & He)]; [now left|].
    apply elem_of_singleton in Hu'. right. congruence.
Qed.

(** A loop whose every turn returns after removing the records of a set of
    users returns after removing the records of the union of these sets. *)
Lemma for_each_removal {A} (F : A -> gset Z) (body : A -> M unit) (l : list A) :
  (forall x w, x ∈ l ->
     exists w', body x w = (Returned tt, w') /\ removal (F x) w w') ->
  forall (S : gset Z) (w : world),
    (forall u, u ∈ S <-> exists x, x ∈ l /\ u ∈ F x) ->
    exists w', for_each l body w = (Returned tt, w') /\ removal S w w'.
Proof.
  induction l as [|x l IH]; intros Hbody S w HS.
  - exists w. split; [reflexivity|]. apply removal_nothing.
    intros u Hu. apply HS in Hu as (x & Hx & _). now apply not_elem_of_nil in Hx.
  - destruct (Hbody x w ltac:(left)) as (w1 & Hrun & Hrem).
    destruct (IH (fun y w Hy => Hbody y w (list_elem_of_further _ _ _ Hy))
                 (⋃ (F <$> l)) w1) as (w2 & Hrun2 & Hrem2).
    { intros u. rewrite elem_of_union_list. split.
      - intros (X & HX & Hu). apply list_elem_of_fmap in HX as (y & -> & Hy). eauto.
      - intros (y & Hy & Hu). exists (F y). split; [|exact Hu].
        now apply list_elem_of_fmap_2. }
    exists w2. split.
    + cbn [for_each]. unfold bind. now rewrite Hrun.
    + apply (removal_then (F x) (⋃ (F <$> l)) S w w1 w2); try assumption.
      intros u. rewrite HS, elem_of_union_list. split.
      * intros (y & Hy & Hu). apply elem_of_cons in Hy as [->|Hy]; [now left|].
        right. exists (F y). split; [|exact Hu]. now apply list_elem_of_fmap_2.
      * intros [Hu|(X & HX & Hu)]; [exists x; split; [left|exact Hu]|].
        apply list_elem_of_fmap in HX as (y & -> & Hy). exists y.
        split; [now right|exact Hu].
Qed.

Lemma records_of_removal (S : gset Z) (u : Z) (w w' : world) :
  removal S w w' -> u ∉ S -> records_of u w' = records_of u w.
Proof.
  intros (Ht & _) Hu. unfold records_of. rewrite Ht, list_filter_filter.
  apply list_filter_iff. intros r. split; [tauto|]. intros ->. tauto.
Qed.

Lemma not_tracked_removal (S : gset Z) (u : Z) (w w' : world) :
  removal S w w' -> u ∈ S -> u ∉ tracked w'.
Proof.
  intros (Ht & _) Hu. rewrite elem_of_tracked, Ht.
  intros Hin. apply list_elem_of_fmap in Hin as (r & -> & Hr).
  now apply list_elem_of_filter in Hr as [Hr _].
Qed.

Lemma get_ready_users_run (w : world) :
  get_ready_users clock w =
  (Returned (list_to_set
     (user <$> filter (fun r => date r < clock (ticks w) - 7 * 86400)
                      (users_in_role w))),
   World (users_in_role w) (journal w) (issued w) (S (ticks w))).
Proof. reflexivity. Qed.

Lemma elem_of_ready (u : Z) (w : world) (R : gset Z) (w1 : world) :
  get_ready_users clock w = (Returned R, w1) ->
  u ∈ R <->
  exists r, r ∈ users_in_role w /\ user r = u /\
            date r < clock (ticks w) - 7 * 86400.
Proof.
  rewrite get_ready_users_run. intros [= <- _].
  rewrite elem_of_list_to_set, list_elem_of_fmap. split.
  - intros (r & -> & Hr). apply list_elem_of_filter in Hr as [Hd Hr]. eauto.
  - intros (r & Hr & <- & Hd). exists r. split; [reflexivity|].
    now apply list_elem_of_filter.
Qed.

(** The turn of one member of the monitored role. *)
Lemma promote_member (ready_users : gset Z) (member : Member) (w : world) :
  exists w',
    for_each (elements ready_users) (fun user_id =>
      if decide (member_id member = user_id)
      then remove_from_db user_id
      else ret tt) w = (Returned tt, w') /\
    removal ({[member_id member]} ∩ ready_users) w w'.
Proof.
  apply (for_each_removal
           (fun user_id => if decide (member_id member = user_id)
                           then {[user_id]} else ∅)).
  - intros x w0 _. destruct (decide (member_id member = x)).
    + eexists. split; [reflexivity|]. apply remove_from_db_removal.
    + exists w0. split; [reflexivity|]. apply removal_nothing.
      intros u. apply not_elem_of_empty.
  - intros u. rewrite elem_of_intersection, elem_of_singleton. split.
    + intros [-> Hu]. exists (member_id member).
      rewrite elem_of_elements, decide_True by reflexivity.
      now rewrite elem_of_singleton.
    + intros (x & Hx & Hu). apply elem_of_elements in Hx.
      destruct (decide (member_id member = x)) as [->|].
      * apply elem_of_singleton in Hu. now subst.
      * now apply not_elem_of_empty in Hu.
Qed.

(** The turn of one guild. *)
Lemma promote_guild (ready_users : gset Z) (guild : Guild) (w : world) :
  exists w',
    except_discord (
      let* role := await_fetch (fetch_role guild role_id_monitored) in
      let* target_role := await_fetch (fetch_role guild role_id_validated) in
      for_each (members role) (fun member =>
        for_each (elements ready_users) (fun user_id =>
          if decide (member_id member = user_id)
          then remove_from_db user_id
          else ret tt))) w = (Returned tt, w') /\
    removal (promoted_in role_id_monitored role_id_validated ready_users guild) w w'.
Proof.
  unfold promoted_in, except_discord, bind, await_fetch.
  destruct (fetch_role guild role_id_monitored) as [role|e].
  2:{ exists w. split; [reflexivity|]. apply removal_nothing.
      intros u. apply not_elem_of_empty. }
  destruct (fetch_role guild role_id_validated) as [target_role|e].
  2:{ exists w. split; [reflexivity|]. apply removal_nothing.
      intros u. apply not_elem_of_empty. }
  destruct (for_each_removal
              (fun member => {[member_id member]} ∩ ready_users)
              (fun member =>
                 for_each (elements ready_users) (fun user_id =>
                   if decide (member_id member = user_id)
                   then remove_from_db user_id
                   else ret tt))
              (members role)
              (fun member w0 _ => promote_member ready_users member w0)
              (member_ids role ∩ ready_users) w) as (w' & Hrun & Hrem).
  - intros u. unfold member_ids.
    rewrite elem_of_intersection, elem_of_list_to_set, list_elem_of_fmap. split.
    + intros [(m & -> & Hm) Hu]. exists m. split; [exact Hm|].
      now rewrite elem_of_intersection, elem_of_singleton.
    + intros (m & Hm & Hu).
      rewrite elem_of_intersection, elem_of_singleton in Hu.
      destruct Hu as [-> Hu]. split; [|exact Hu]. now exists m.
  - exists w'. now rewrite Hrun.
Qed.

Lemma promoted_ready (ready_users : gset Z) (guilds : list Guild) (u : Z) :
  u ∈ promoted role_id_monitored role_id_validated ready_users guilds <->
  u ∈ ready_users /\
  exists guild role target_role,
    guild ∈ guilds /\
    fetch_role guild role_id_monitored = Found role /\
    fetch_role guild role_id_validated = Found target_role /\
    u ∈ member_ids role.
Proof.
  unfold promoted. rewrite elem_of_union_list. split.
  - intros (X & HX & Hu). apply list_elem_of_fmap in HX as (g & -> & Hg).
    unfold promoted_in in Hu.
    destruct (fetch_role g role_id_monitored) as [role|] eqn:Hm;
      [|now apply not_elem_of_empty in Hu].
    destruct (fetch_role g role_id_validated) as [target|] eqn:Hv;
      [|now apply not_elem_of_empty in Hu].
    apply elem_of_intersection in Hu as [Hu HR]. split; [exact HR|].
    exists g, role, target. auto.
  - intros (HR & g & role & target & Hg & Hm & Hv & Hu).
    exists (promoted_in role_id_monitored role_id_validated ready_users g).
    split; [now apply list_elem_of_fmap_2|].
    unfold promoted_in. rewrite Hm, Hv. now apply elem_of_intersection.
Qed.

(** The promotion cycle as one step on the world: it always returns, and it
    has removed the records of the ready users found in a monitored role. *)
Lemma promote_users_run (guilds : list Guild) (w : world) (R : gset Z) (w1 : world) :
  get_ready_users clock w = (Returned R, w1) ->
  exists w',
    promote_users clock role_id_monitored role_id_validated guilds w
      = (Returned tt, w') /\
    removal (promoted role_id_monitored role_id_validated R guilds) w1 w'.
Proof.
  intros Hready. unfold promote_users. unfold bind at 1. rewrite Hready.
  destruct (size R <? 1)%nat eqn:Hsize.
  - exists w1. split; [reflexivity|]. apply removal_nothing.
    intros u Hu. apply promoted_ready in Hu as [Hu _].
    apply Nat.ltb_lt in Hsize.
    assert (HR : R ≡ ∅) by (apply size_empty_inv; lia).
    rewrite HR in Hu. now apply not_elem_of_empty in Hu.
  - apply (for_each_removal
             (promoted_in role_id_monitored role_id_validated R)).
    + intros guild w0 _. apply promote_guild.
    + intros u. unfold promoted. rewrite elem_of_union_list. split.
      * intros (X & HX & Hu). apply list_elem_of_fmap in HX as (g & -> & Hg). eauto.
      * intros (g & Hg & Hu). eexists. split; [|exact Hu].
        now apply list_elem_of_fmap_2.
Qed.

(** C4, as the code has it.  A ready user who is a member of the monitored
    role of a guild whose two roles are fetched has the record removed, and
    the removal is logged; the cycle returns and sends no role mutation to
    the platform. *)
Theorem promotion_removes_record
    (guilds : list Guild) (guild : Guild) (role target_role : Role)
    (u d : Z) (w : world) :
  guild ∈ guilds ->
  fetch_role guild role_id_monitored = Found role ->
  fetch_role guild role_id_validated = Found target_role ->
  u ∈ member_ids role ->
  Row u d ∈ users_in_role w ->
  d < clock (ticks w) - 7 * 86400 ->
  let r := promote_users clock role_id_monitored role_id_validated guilds w in
  outcome_of r = Returned tt /\
  issued (world_of r) = issued w /\
  (u ∉ tracked (world_of r)) /\
  Removing u ∈ journal (world_of r).
Proof.
  intros Hg Hm Hv Hu Hrow Hd r. subst r.
  destruct (promote_users_run guilds w _ _ (get_ready_users_run w))
    as (w' & -> & Hrem).
  unfold outcome_of, world_of. cbn [fst snd].
  assert (HS : u ∈ promoted role_id_monitored role_id_validated
                   (list_to_set (user <$> filter
                      (fun r => date r < clock (ticks w) - 7 * 86400)
                      (users_in_role w))) guilds).
  { apply promoted_ready. split.
    - apply (elem_of_ready u w _ _ (get_ready_users_run w)).
      exists (Row u d). auto.
    - exists guild, role, target_role. auto. }
  split; [reflexivity|]. split; [|split].
  - now destruct Hrem as (_ & -> & _).
  - exact (not_tracked_removal _ u _ _ Hrem HS).
  - destruct Hrem as (_ & _ & _ & Hj). apply Hj. right. now exists u.
Qed.

(** C7.  A user who is in no monitored role's member list keeps the records
    the ledger had: the cycle returns, the user's records are the same, no
    removal of the user is logged by it, and no role mutation is sent. *)
Theorem promotion_skips_non_holders (guilds : list Guild) (u : Z) (w : world) :
  (forall guild, guild ∈ guilds -> ~ holds_monitored role_id_monitored guild u) ->
  let r := promote_users clock role_id_monitored role_id_validated guilds w in
  outcome_of r = Returned tt /\
  records_of u (world_of r) = records_of u w /\
  issued (world_of r) = issued w /\
  (Removing u ∈ journal (world_of r) -> Removing u ∈ journal w).
Proof.
  intros Hout r. subst r.
  destruct (promote_users_run guilds w _ _ (get_ready_users_run w))
    as (w' & -> & Hrem).
  unfold outcome_of, world_of. cbn [fst snd].
  match type of Hrem with removal ?S0 _ _ => set (S := S0) in * end.
  assert (HS : u ∉ S).
  { intros Hin. apply promoted_ready in Hin
      as (_ & g & role & target & Hg & Hm & _ & Hu).
    apply (Hout g Hg). now exists role. }
  split; [reflexivity|]. split; [|split].
  - now rewrite (records_of_removal S u _ _ Hrem HS).
  - now destruct Hrem as (_ & -> & _).
  - destruct Hrem as (_ & _ & _ & Hj). intros He.
    apply Hj in He as [He|(u' & Hu' & [= ->])]; [exact He|contradiction].
Qed.

(** C6, as the code has it.  The query returns the users that have a record
    strictly older than seven days before now and leaves the table as it is;
    a user whose records are all at or after that bound is not returned, and
    a promotion cycle leaves the records of such a user as they were. *)
Theorem ready_users_strictly_older (w : world) :
  exists R,
    outcome_of (get_ready_users clock w) = Returned R /\
    users_in_role (world_of (get_ready_users clock w)) = users_in_role w /\
    (forall u, u ∈ R <->
               exists r, r ∈ users_in_role w /\ user r = u /\
                         date r < clock (ticks w) - 7 * 86400) /\
    (forall u, (forall r, r ∈ users_in_role w -> user r = u ->
                          clock (ticks w) - 7 * 86400 <= date r) ->
       (u ∉ R) /\
       forall guilds,
         records_of u
           (world_of (promote_users clock role_id_monitored role_id_validated
                        guilds w)) = records_of u w).
Proof.
  eexists. rewrite get_ready_users_run.
  unfold outcome_of, world_of. cbn [fst snd users_in_role].
  split; [reflexivity|]. split; [reflexivity|].
  pose proof (fun u => elem_of_ready u w _ _ (get_ready_users_run w)) as Hchar.
  split; [exact Hchar|].
  intros u Hyoung.
  assert (Hu : u ∉ (list_to_set (user <$> filter
                      (fun r => date r < clock (ticks w) - 7 * 86400)
                      (users_in_role w)) : gset Z)).
  { intros Hin. apply Hchar in Hin as (r & Hr & Heq & Hd).
    specialize (Hyoung r Hr Heq). lia. }
  split; [exact Hu|]. intros guilds.
  destruct (promote_users_run guilds w _ _ (get_ready_users_run w))
    as (w' & -> & Hrem).
  cbn [snd]. rewrite (records_of_removal _ u _ _ Hrem); [reflexivity|].
  intros Hin. now apply promoted_ready in Hin as [Hin _].
Qed.

End Promotion.

Section Listener.

Variable clock : nat -> Z.
Variable role_id_monitored : Z.

(** A loop that acts on the one element equal to [x] and passes over the
    others. *)
Lemma for_each_only_absent (x : Z) (act : M unit) (l : list Z) (w : world) :
  x ∉ l ->
  for_each l (fun y => if decide (y = x) then act else ret tt) w = (Returned tt, w).
Proof.
  induction l as [|y l IH]; intros Hx; [reflexivity|].
  apply not_elem_of_cons in Hx as [Hne Hx].
  cbn [for_each]. rewrite decide_False by congruence.
  unfold bind, ret. now apply IH.
Qed.

Lemma for_each_only_present (x : Z) (act : M unit) (l : list Z) (w : world) :
  NoDup l -> x ∈ l ->
  for_each l (fun y => if decide (y = x) then act else ret tt) w = act w.
Proof.
  induction l as [|y l IH]; intros Hnd Hx; [now apply not_elem_of_nil in Hx|].
  apply NoDup_cons in Hnd as [Hy Hnd]. cbn [for_each].
  destruct (decide (y = x)) as [->|Hne].
  - unfold bind. destruct (act w) as [[[]|e] w'] eqn:Hact; [|reflexivity].
    now apply for_each_only_absent.
  - apply elem_of_cons in Hx as [Hx|Hx]; [congruence|].
    unfold bind, ret. now apply IH.
Qed.

End Listener.

(** ** The statements on the scenarios *)

Import Scenario.

Ltac by_evaluation :=
  lazymatch goal with
  | |- ?P => refine (@bool_decide_unpack P _ _); vm_compute; exact I
  end.

Lemma remove_absent_is_noop_witness :
  (42 ∉ tracked ledger_234) /\
  (outcome_of (remove_from_db 42 ledger_234) = Returned tt /\
   users_in_role (world_of (remove_from_db 42 ledger_234)) = users_in_role ledger_234 /\
   records_of 42 (world_of (remove_from_db 42 ledger_234)) = []).
Proof.
  split; [by_evaluation|].
  apply (remove_absent_is_noop 42 ledger_234). by_evaluation.
Defined.

Lemma add_same_second_rejected_witness :
  5 ≠ 42 /\
  Row 42 (same_second (ticks (just_added same_second)))
    ∈ users_in_role (just_added same_second) /\
  (outcome_of (add_user_to_db same_second 5 (just_added same_second))
     = Raised IntegrityError /\
   users_in_role (world_of (add_user_to_db same_second 5 (just_added same_second)))
     = users_in_role (just_added same_second) /\
   (5 ∉ tracked (just_added same_second) ->
    5 ∉ tracked (world_of (add_user_to_db same_second 5 (just_added same_second))))).
Proof.
  split; [lia|]. split; [by_evaluation|].
  apply (add_same_second_rejected same_second 5 42 (just_added same_second));
    [lia|by_evaluation].
Defined.

Lemma add_twice_raises :
  outcome_of (add_user_to_db ticking 42 nobody) = Returned tt /\
  outcome_of (add_user_to_db ticking 42 (just_added ticking)) = Raised IntegrityError /\
  outcome_of (add_user_to_db ticking 42 (just_added ticking)) <> Returned tt.
Proof. vm_compute. split; [reflexivity|]. split; [reflexivity|discriminate]. Qed.

Lemma add_existing_rejected_witness :
  records_of 42 (just_added ticking) = [Row 42 1000000] /\
  (outcome_of (add_user_to_db ticking 42 (just_added ticking)) = Raised IntegrityError /\
   users_in_role (world_of (add_user_to_db ticking 42 (just_added ticking)))
     = users_in_role (just_added ticking) /\
   records_of 42 (world_of (add_user_to_db ticking 42 (just_added ticking)))
     = [Row 42 1000000]).
Proof.
  split; [vm_compute; reflexivity|].
  apply (add_existing_rejected ticking 42 1000000 (just_added ticking)).
  vm_compute; reflexivity.
Defined.

Lemma promotion_sends_no_role_mutation :
  let r := promote_users ticking monitored validated [guild_of [42]] eight_days in
  outcome_of r = Returned tt /\
  ~ add_roles 42 validated ∈ issued (world_of r) /\
  ~ remove_roles 42 monitored ∈ issued (world_of r).
Proof.
  intros r.
  assert (Hnone : issued (world_of r) = []) by (vm_compute; reflexivity).
  split; [vm_compute; reflexivity|].
  rewrite Hnone. split; apply not_elem_of_nil.
Qed.

Lemma promotion_removes_record_witness :
  let role := {| role_id := monitored; members := [member 42 [monitored]] |} in
  let target_role := {| role_id := validated; members := [] |} in
  let d := 1000000 - 8 * 86400 in
  guild_of [42] ∈ [guild_of [42]] /\
  fetch_role (guild_of [42]) monitored = Found role /\
  fetch_role (guild_of [42]) validated = Found target_role /\
  42 ∈ member_ids role /\
  Row 42 d ∈ users_in_role eight_days /\
  d < ticking (ticks eight_days) - 7 * 86400 /\
  (let r := promote_users ticking monitored validated [guild_of [42]] eight_days in
   outcome_of r = Returned tt /\
   issued (world_of r) = issued eight_days /\
   (42 ∉ tracked (world_of r)) /\
   Removing 42 ∈ journal (world_of r)).
Proof.
  intros role target_role d.
  assert (Hg : guild_of [42] ∈ [guild_of [42]]) by left.
  assert (Hu : 42 ∈ member_ids role) by by_evaluation.
  assert (Hrow : Row 42 d ∈ users_in_role eight_days) by left.
  assert (Hd : d < ticking (ticks eight_days) - 7 * 86400) by (vm_compute; reflexivity).
  do 6 (split; [first [assumption|reflexivity]|]).
  exact (promotion_removes_record ticking monitored validated
           [guild_of [42]] (guild_of [42]) role target_role 42 d eight_days
           Hg eq_refl eq_refl Hu Hrow Hd).
Defined.

Lemma ready_excludes_exact_bound :
  date (Row 42 (1000000 - 7 * 86400)) <= ticking (ticks seven_days) - 7 * 86400 /\
  Row 42 (1000000 - 7 * 86400) ∈ users_in_role seven_days /\
  forall R, outcome_of (get_ready_users ticking seven_days) = Returned R -> 42 ∉ R.
Proof.
  split; [vm_compute; discriminate|]. split; [left|].
  intros R [= <-]. by_evaluation.
Qed.

Lemma ready_users_strictly_older_witness :
  exists R,
    outcome_of (get_ready_users ticking eight_days) = Returned R /\ 42 ∈ R.
Proof.
  destruct (ready_users_strictly_older ticking monitored validated eight_days)
    as (R & Hout & _ & Hchar & _).
  exists R. split; [exact Hout|].
  apply Hchar. exists (Row 42 (1000000 - 8 * 86400)).
  split; [left|]. split; [reflexivity|vm_compute; reflexivity].
Defined.

Lemma promotion_skips_non_holders_witness :
  (forall guild, guild ∈ [guild_of [1]] -> ~ holds_monitored monitored guild 42) /\
  (let r := promote_users ticking monitored validated [guild_of [1]] eight_days in
   outcome_of r = Returned tt /\
   records_of 42 (world_of r) = records_of 42 eight_days /\
   issued (world_of r) = issued eight_days /\
   (Removing 42 ∈ journal (world_of r) -> Removing 42 ∈ journal eight_days)).
Proof.
  assert (Hout : forall guild, guild ∈ [guild_of [1]] ->
                   ~ holds_monitored monitored guild 42).
  { intros guild Hg (role & Hf & Hu). apply list_elem_of_singleton in Hg.
    subst guild. injection Hf as <-. revert Hu. by_evaluation. }
  split; [exact Hout|].
  exact (promotion_skips_non_holders ticking monitored validated
           [guild_of [1]] 42 eight_days Hout).
Defined.

(** ** The ledger operations, one call at a time *)

Section Ledger_calls.

Variable clock : nat -> Z.

Lemma records_of_snoc (v : Z) (t : list row) (r : row) j i n :
  records_of v (World (t ++ [r]) j i n) =
  filter (fun x => user x = v) t ++ (if decide (user r = v) then [r] else []).
Proof.
  unfold records_of. cbn [users_in_role]. rewrite filter_app. f_equal.
Qed.

(** X1.  [remove_from_db] always returns; afterwards the user has no record,
    and the records of every other user are the ones there were. *)
Theorem remove_from_db_effect (u : Z) (w : world) :
  outcome_of (remove_from_db u w) = Returned tt /\
  records_of u (world_of (remove_from_db u w)) = [] /\
  (u ∉ tracked (world_of (remove_from_db u w))) /\
  (forall v, v <> u ->
     records_of v (world_of (remove_from_db u w)) = records_of v w) /\
  journal (world_of (remove_from_db u w)) = journal w ++ [Removing u].
Proof.
  rewrite remove_from_db_run. unfold outcome_of, world_of.
  cbn [fst snd journal].
  assert (Hnone : records_of u
            (World (filter (fun r => user r ≠ u) (users_in_role w))
                   (journal w ++ [Removing u]) (issued w) (ticks w)) = []).
  { unfold records_of. cbn [users_in_role]. rewrite list_filter_filter.
    apply filter_none. intros r _ [Heq Hne]. exact (Hne Heq). }
  split; [reflexivity|]. split; [exact Hnone|].
  split; [now apply records_of_nil|]. split; [|reflexivity].
  intros v Hv. unfold records_of. cbn [users_in_role].
  rewrite list_filter_filter. apply list_filter_iff. intros r.
  split; [tauto|]. intros ->. auto.
Qed.

(** X2.  [add_user_to_db] returns exactly when the user has no record and no
    record carries the second the database reads.  It then appends one row,
    the user's only record, stamped with that second, and the records of the
    other users are the ones there were; otherwise it raises the uniqueness
    error and the table is the one there was. *)
Theorem add_user_to_db_outcome (u : Z) (w : world) :
  let r := add_user_to_db clock u w in
  (outcome_of r = Returned tt <->
   (u ∉ tracked w) /\ (clock (ticks w) ∉ date <$> users_in_role w)) /\
  (outcome_of r = Returned tt ->
   users_in_role (world_of r) = users_in_role w ++ [Row u (clock (ticks w))] /\
   records_of u (world_of r) = [Row u (clock (ticks w))] /\
   forall v, v <> u -> records_of v (world_of r) = records_of v w) /\
  (outcome_of r <> Returned tt ->
   outcome_of r = Raised IntegrityError /\
   users_in_role (world_of r) = users_in_role w).
Proof.
  intros r. subst r.
  destruct (decide (u ∈ user <$> users_in_role w)) as [Hu|Hu].
  { rewrite add_user_to_db_rejected by now left.
    unfold outcome_of, world_of. cbn [fst snd users_in_role].
    rewrite elem_of_tracked. split; [|split].
    - split; [discriminate|tauto].
    - discriminate.
    - auto. }
  destruct (decide (clock (ticks w) ∈ date <$> users_in_role w)) as [Hd|Hd].
  { rewrite add_user_to_db_rejected by now right.
    unfold outcome_of, world_of. cbn [fst snd users_in_role].
    split; [|split].
    - split; [discriminate|tauto].
    - discriminate.
    - auto. }
  rewrite add_user_to_db_accepted by assumption.
  unfold outcome_of, world_of. cbn [fst snd].
  rewrite elem_of_tracked. split; [tauto|]. split; [|congruence].
  intros _. split; [reflexivity|]. split.
  - rewrite records_of_snoc. cbn [user]. rewrite decide_True by reflexivity.
    rewrite filter_none; [reflexivity|].
    intros x Hx Heq. apply Hu. subst u. now apply list_elem_of_fmap_2.
  - intros v Hv. rewrite records_of_snoc. cbn [user].
    rewrite decide_False by congruence. now rewrite app_nil_r.
Qed.

(** X3.  Adding a user who has no record and then removing the user leaves
    the table there was, whether the addition was accepted or rejected. *)
Theorem add_then_remove_restores (u : Z) (w : world) :
  u ∉ tracked w ->
  users_in_role
    (world_of (remove_from_db u (world_of (add_user_to_db clock u w))))
  = users_in_role w.
Proof.
  intros Hu. rewrite elem_of_tracked in Hu.
  rewrite remove_from_db_run. unfold world_of at 1. cbn [snd users_in_role].
  destruct (decide (clock (ticks w) ∈ date <$> users_in_role w)) as [Hd|Hd].
  - rewrite add_user_to_db_rejected by now right.
    unfold world_of. cbn [snd users_in_role]. now apply filter_other_users.
  - rewrite add_user_to_db_accepted by assumption.
    unfold world_of. cbn [snd users_in_role].
    rewrite filter_app, filter_other_users by exact Hu.
    rewrite filter_cons_False, filter_nil, app_nil_r; [reflexivity|].
    cbn. auto.
Qed.

(** X4.  Removals commute and repeat harmlessly: the table after removing
    two users does not depend on the order, and removing a user a second
    time leaves the table of the first removal. *)
Theorem remove_from_db_commutes (u v : Z) (w : world) :
  users_in_role (world_of (remove_from_db v (world_of (remove_from_db u w)))) =
  users_in_role (world_of (remove_from_db u (world_of (remove_from_db v w)))) /\
  users_in_role (world_of (remove_from_db u (world_of (remove_from_db u w)))) =
  users_in_role (world_of (remove_from_db u w)).
Proof.
  rewrite !remove_from_db_run. unfold world_of. cbn [snd users_in_role].
  rewrite !list_filter_filter. split.
  - apply list_filter_iff. intros r. tauto.
  - apply list_filter_iff. intros r. tauto.
Qed.

End Ledger_calls.

(** ** What every path through the program keeps

    A relation between the world before and the world after that is
    reflexive, transitive and kept by the two ledger operations and by a
    reading of the clock is kept by the pass, the two tasks and the
    listener, whatever their outcome. *)

Section Steps.

Variable R : world -> world -> Prop.
Hypothesis R_refl : forall w, R w w.
Hypothesis R_trans : forall w1 w2 w3, R w1 w2 -> R w2 w3 -> R w1 w3.

Lemma step_bind {A B} (m : M A) (k : A -> M B) :
  (forall w, R w (world_of (m w))) ->
  (forall a w, R w (world_of (k a w))) ->
  forall w, R w (world_of (bind m k w)).
Proof.
  intros Hm Hk w. unfold bind. specialize (Hm w).
  destruct (m w) as [[a|e] w1]; unfold world_of in *; cbn [snd] in *.
  - eapply R_trans; [exact Hm|apply Hk].
  - exact Hm.
Qed.

Lemma step_for_each {A} (l : list A) (body : A -> M unit) :
  (forall x w, R w (world_of (body x w))) ->
  forall w, R w (world_of (for_each l body w)).
Proof.
  intros Hbody. induction l as [|x l IH]; intros w; [apply R_refl|].
  cbn [for_each]. apply step_bind; [apply Hbody|intros _; exact IH].
Qed.

Lemma step_except_discord (m : M unit) :
  (forall w, R w (world_of (m w))) ->
  forall w, R w (world_of (except_discord m w)).
Proof.
  intros Hm w. unfold except_discord. specialize (Hm w).
  destruct (m w) as [[[]|[e|]] w1]; exact Hm.
Qed.

Lemma step_await_fetch (f : fetched) (w : world) :
  R w (world_of (await_fetch f w)).
Proof. unfold await_fetch. destruct f; apply R_refl. Qed.

Variable clock : nat -> Z.
Variable role_id_monitored : Z.
Variable role_id_validated : Z.

Hypothesis R_add : forall u w, R w (world_of (add_user_to_db clock u w)).
Hypothesis R_remove : forall u w, R w (world_of (remove_from_db u w)).
Hypothesis R_read :
  forall w, R w (World (users_in_role w) (journal w) (issued w) (S (ticks w))).

Lemma step_update_probation_users (L : gset Z) (w : world) :
  R w (world_of (update_probation_users clock L w)).
Proof.
  unfold update_probation_users. apply step_bind; [intros w0; apply R_refl|].
  intros rows w0. apply step_bind.
  - apply step_for_each. exact R_remove.
  - intros _. apply step_for_each. exact R_add.
Qed.

Lemma step_scan_users (guilds : list Guild) (w : world) :
  R w (world_of (scan_users clock role_id_monitored guilds w)).
Proof.
  unfold scan_users. apply step_for_each. intros guild.
  apply step_except_discord. apply step_bind; [apply step_await_fetch|].
  intros role. apply step_update_probation_users.
Qed.

Lemma step_promote_users (guilds : list Guild) (w : world) :
  R w (world_of (promote_users clock role_id_monitored role_id_validated guilds w)).
Proof.
  unfold promote_users. apply step_bind.
  - intros w0. apply R_read.
  - intros ready_users w0. destruct (size ready_users <? 1)%nat; [apply R_refl|].
    apply step_for_each. intros guild. apply step_except_discord.
    apply step_bind; [apply step_await_fetch|]. intros role.
    apply step_bind; [apply step_await_fetch|]. intros target_role.
    apply step_for_each. intros member. apply step_for_each. intros user_id.
    destruct (decide (member_id member = user_id)); [apply R_remove|].
    intros w1. apply R_refl.
Qed.

Lemma step_on_member_update (before after : Member) (w : world) :
  R w (world_of (on_member_update clock role_id_monitored before after w)).
Proof.
  unfold on_member_update.
  destruct (decide (member_roles before = member_roles after)); [apply R_refl|].
  apply step_bind.
  - apply step_for_each. intros role.
    destruct (decide (role = role_id_monitored)); [apply R_add|].
    intros w1. apply R_refl.
  - intros _. apply step_for_each. intros role.
    destruct (decide (role = role_id_monitored)); [apply R_remove|].
    intros w1. apply R_refl.
Qed.

End Steps.

Section Kept.

Variable clock : nat -> Z.
Variable role_id_monitored : Z.
Variable role_id_validated : Z.

Lemma well_indexed_add (u : Z) (w : world) :
  well_indexed w -> well_indexed (world_of (add_user_to_db clock u w)).
Proof.
  intros [Hu Hd].
  destruct (decide (u ∈ user <$> users_in_role w)) as [Hin|Hout].
  { rewrite add_user_to_db_rejected by now left. now split. }
  destruct (decide (clock (ticks w) ∈ date <$> users_in_role w)) as [Hdin|Hdout].
  { rewrite add_user_to_db_rejected by now right. now split. }
  rewrite add_user_to_db_accepted by assumption.
  unfold well_indexed, world_of. cbn [snd users_in_role].
  rewrite !fmap_app. cbn [fmap list_fmap user date].
  split; apply NoDup_app; (split; [assumption|]);
    (split; [|apply NoDup_singleton]);
    intros x Hx Hx'; apply list_elem_of_singleton in Hx'; congruence.
Qed.

Lemma well_indexed_remove (u : Z) (w : world) :
  well_indexed w -> well_indexed (world_of (remove_from_db u w)).
Proof.
  intros [Hu Hd]. rewrite remove_from_db_run.
  unfold well_indexed, world_of. cbn [snd users_in_role].
  split.
  - apply (sublist_NoDup _ (user <$> users_in_role w)); [exact Hu|].
    apply fmap_sublist, sublist_filter.
  - apply (sublist_NoDup _ (date <$> users_in_role w)); [exact Hd|].
    apply fmap_sublist, sublist_filter.
Qed.

(** X5.  The two unique indexes are kept: from a table in which no user and
    no date occurs twice, each ledger operation, the reconciliation pass,
    the two tasks and the listener leave such a table, whether they return
    or raise. *)
Theorem unique_indexes_kept (w : world) :
  well_indexed w ->
  (forall u, well_indexed (world_of (add_user_to_db clock u w))) /\
  (forall u, well_indexed (world_of (remove_from_db u w))) /\
  (forall L, well_indexed (world_of (update_probation_users clock L w))) /\
  (forall guilds,
     well_indexed (world_of (scan_users clock role_id_monitored guilds w))) /\
  (forall guilds,
     well_indexed (world_of (promote_users clock role_id_monitored
                               role_id_validated guilds w))) /\
  (forall before after,
     well_indexed (world_of (on_member_update clock role_id_monitored
                               before after w))).
Proof.
  intros Hw.
  set (R := fun w1 w2 : world => well_indexed w1 -> well_indexed w2).
  assert (Hrefl : forall w1, R w1 w1) by (intros w1 H; exact H).
  assert (Htrans : forall w1 w2 w3, R w1 w2 -> R w2 w3 -> R w1 w3)
    by (intros w1 w2 w3 H12 H23 H; auto).
  assert (Hadd : forall u w1, R w1 (world_of (add_user_to_db clock u w1)))
    by (intros u w1; exact (well_indexed_add u w1)).
  assert (Hrem : forall u w1, R w1 (world_of (remove_from_db u w1)))
    by (intros u w1; exact (well_indexed_remove u w1)).
  assert (Hread : forall w1,
            R w1 (World (users_in_role w1) (journal w1) (issued w1) (S (ticks w1))))
    by (intros w1 H; exact H).
  split; [intros u; now apply well_indexed_add|].
  split; [intros u; now apply well_indexed_remove|].
  split; [intros L; now apply (step_update_probation_users R Hrefl Htrans clock Hadd Hrem)|].
  split; [intros guilds;
          now apply (step_scan_users R Hrefl Htrans clock role_id_monitored Hadd Hrem)|].
  split; [intros guilds;
          now apply (step_promote_users R Hrefl Htrans clock role_id_monitored
                       role_id_validated Hrem Hread)|].
  intros before after.
  now apply (step_on_member_update R Hrefl Htrans clock role_id_monitored Hadd Hrem).
Qed.

End Kept.

Section Logged.

Variable clock : nat -> Z.
Variable role_id_monitored : Z.
Variable role_id_validated : Z.

Lemma audited_refl (w : world) : audited w w.
Proof.
  exists []. split; [now rewrite app_nil_r|]. intros u Hne. now destruct Hne.
Qed.

Lemma audited_trans (w1 w2 w3 : world) :
  audited w1 w2 -> audited w2 w3 -> audited w1 w3.
Proof.
  intros (n1 & Hj1 & Hc1) (n2 & Hj2 & Hc2). exists (n1 ++ n2). split.
  - now rewrite Hj2, Hj1, app_assoc.
  - intros u Hne. rewrite !elem_of_app.
    destruct (decide (records_of u w2 = records_of u w1)) as [Heq|Hne1].
    + destruct (Hc2 u) as [H|H]; [congruence|tauto..].
    + destruct (Hc1 u Hne1) as [H|H]; tauto.
Qed.

Lemma audited_add (u : Z) (w : world) :
  audited w (world_of (add_user_to_db clock u w)).
Proof.
  exists [Adding u].
  destruct (decide (u ∈ user <$> users_in_role w
                    \/ clock (ticks w) ∈ date <$> users_in_role w)) as [Hrej|Hacc].
  - rewrite add_user_to_db_rejected by exact Hrej.
    split; [reflexivity|]. intros v Hne. now destruct Hne.
  - rewrite add_user_to_db_accepted by tauto.
    split; [reflexivity|]. intros v Hne. left.
    destruct (decide (u = v)) as [->|Huv]; [left|]. destruct Hne.
    unfold world_of. cbn [snd]. rewrite records_of_snoc. cbn [user].
    rewrite decide_False by exact Huv. now rewrite app_nil_r.
Qed.

Lemma audited_remove (u : Z) (w : world) :
  audited w (world_of (remove_from_db u w)).
Proof.
  exists [Removing u]. rewrite remove_from_db_run.
  split; [reflexivity|]. intros v Hne. right.
  destruct (decide (u = v)) as [->|Huv]; [left|]. destruct Hne.
  unfold world_of, records_of. cbn [snd users_in_role].
  rewrite list_filter_filter. apply list_filter_iff. intros r.
  split; [tauto|]. intros ->. auto.
Qed.

(** X6.  Every change of the table is logged: across a ledger operation, the
    reconciliation pass, a task or the listener the log only grows, and a
    user whose records are not the ones there were has an [Adding] or a
    [Removing] line among the new lines, whether the run returns or
    raises. *)
Theorem every_change_is_logged (w : world) :
  (forall u, audited w (world_of (add_user_to_db clock u w))) /\
  (forall u, audited w (world_of (remove_from_db u w))) /\
  (forall L, audited w (world_of (update_probation_users clock L w))) /\
  (forall guilds,
     audited w (world_of (scan_users clock role_id_monitored guilds w))) /\
  (forall guilds,
     audited w (world_of (promote_users clock role_id_monitored
                            role_id_validated guilds w))) /\
  (forall before after,
     audited w (world_of (on_member_update clock role_id_monitored
                            before after w))).
Proof.
  assert (Hread : forall w1,
            audited w1 (World (users_in_role w1) (journal w1) (issued w1)
                              (S (ticks w1)))).
  { intros w1. exists []. split; [cbn; now rewrite app_nil_r|].
    intros u Hne. now destruct Hne. }
  split; [intros u; apply audited_add|].
  split; [intros u; apply audited_remove|].
  split; [intros L; apply (step_update_probation_users audited audited_refl
                             audited_trans clock audited_add audited_remove)|].
  split; [intros guilds;
          apply (step_scan_users audited audited_refl audited_trans clock
                   role_id_monitored audited_add audited_remove)|].
  split; [intros guilds;
          apply (step_promote_users audited audited_refl audited_trans clock
                   role_id_monitored role_id_validated audited_remove Hread)|].
  intros before after.
  apply (step_on_member_update audited audited_refl audited_trans clock
           role_id_monitored audited_add audited_remove).
Qed.

End Logged.

(** ** The reconciliation pass, whatever the clock *)

Section Pass.

Variable clock : nat -> Z.
Variable role_id_monitored : Z.

Lemma filter_all {A} (P : A -> Prop) `{!forall x, Decision (P x)} (l : list A) :
  (forall x, x ∈ l -> P x) -> filter P l = l.
Proof.
  induction l as [|a l IH]; intros Hall; [reflexivity|].
  rewrite filter_cons_True by (apply Hall; left).
  f_equal. apply IH. intros x Hx. apply Hall. now right.
Qed.

Lemma difference_subseteq_empty (X Y : gset Z) : X ⊆ Y -> X ∖ Y = ∅.
Proof.
  intros Hsub. apply set_eq. intros u. rewrite elem_of_difference. split.
  - intros [HX HY]. destruct HY. now apply Hsub.
  - intros Hu. now apply not_elem_of_empty in Hu.
Qed.

(** The insertions of a loop, as far as they get: the rows appended belong to
    users of the list, and to all of them when the loop returns. *)
Lemma for_each_add_any (us : list Z) (w : world) :
  (outcome_of (for_each us (add_user_to_db clock) w) = Returned tt \/
   outcome_of (for_each us (add_user_to_db clock) w) = Raised IntegrityError) /\
  exists new,
    users_in_role (world_of (for_each us (add_user_to_db clock) w))
      = users_in_role w ++ new /\
    (forall x, x ∈ new -> user x ∈ us) /\
    (outcome_of (for_each us (add_user_to_db clock) w) = Returned tt ->
     user <$> new = us).
Proof.
  revert w. induction us as [|u us IH]; intros w.
  - split; [now left|]. exists []. cbn. rewrite app_nil_r.
    split; [reflexivity|]. split; [|reflexivity].
    intros x Hx. now apply not_elem_of_nil in Hx.
  - cbn [for_each]. unfold bind.
    destruct (decide (u ∈ user <$> users_in_role w
                      \/ clock (ticks w) ∈ date <$> users_in_role w)) as [Hrej|Hacc].
    + rewrite add_user_to_db_rejected by exact Hrej.
      unfold outcome_of, world_of. cbn [fst snd users_in_role].
      split; [now right|]. exists []. rewrite app_nil_r.
      split; [reflexivity|]. split; [|discriminate].
      intros x Hx. now apply not_elem_of_nil in Hx.
    + rewrite add_user_to_db_accepted by tauto.
      match goal with
      | |- context [for_each us _ ?w1] =>
          destruct (IH w1) as (Hout & new & Htable & Husers & Hall)
      end.
      split; [exact Hout|].
      exists (Row u (clock (ticks w)) :: new). split; [|split].
      * rewrite Htable. cbn [users_in_role]. now rewrite <- app_assoc.
      * intros x Hx. apply elem_of_cons in Hx as [->|Hx]; [left|].
        right. now apply Husers.
      * intros Hret. rewrite fmap_cons. cbn [user]. f_equal. now apply Hall.
Qed.

(** The pass is the loop of insertions run on the table the removals
    leave. *)
Lemma update_probation_users_unfold (L : gset Z) (w : world) :
  update_probation_users clock L w =
  for_each (elements (L ∖ tracked w)) (add_user_to_db clock)
    (World (filter (fun r => user r ∈ L) (users_in_role w))
           (journal w ++ (Removing <$> elements (tracked w ∖ L)))
           (issued w) (ticks w)).
Proof.
  unfold update_probation_users, select_user. unfold bind at 1.
  fold (tracked w). unfold bind. rewrite for_each_remove_from_db.
  f_equal. f_equal. apply filter_agree. intros r Hr.
  rewrite elem_of_elements, elem_of_difference.
  assert (user r ∈ tracked w) by (apply elem_of_tracked, list_elem_of_fmap_2, Hr).
  destruct (decide (user r ∈ L)); tauto.
Qed.

Lemma update_probation_users_any (L : gset Z) (w : world) :
  (outcome_of (update_probation_users clock L w) = Returned tt \/
   outcome_of (update_probation_users clock L w) = Raised IntegrityError) /\
  exists new,
    users_in_role (world_of (update_probation_users clock L w))
      = filter (fun r => user r ∈ L) (users_in_role w) ++ new /\
    (forall x, x ∈ new -> user x ∈ L ∖ tracked w) /\
    (outcome_of (update_probation_users clock L w) = Returned tt ->
     user <$> new = elements (L ∖ tracked w)).
Proof.
  rewrite update_probation_users_unfold.
  match goal with
  | |- context [for_each ?us _ ?w1] =>
      destruct (for_each_add_any us w1) as (Hout & new & Htable & Husers & Hall)
  end.
  split; [exact Hout|]. exists new. split; [exact Htable|].
  split; [|exact Hall]. intros x Hx. apply elem_of_elements. now apply Husers.
Qed.

(** X7.  Whatever the clock, a pass returns or raises the uniqueness error,
    and either way it leaves no record of a user outside the live set, keeps
    the records of the live users that were tracked as they were, and tracks
    no one outside the live set; when it returns, the tracked set is the
    live set. *)
Theorem update_probation_users_safe (L : gset Z) (w : world) :
  let r := update_probation_users clock L w in
  (outcome_of r = Returned tt \/ outcome_of r = Raised IntegrityError) /\
  tracked (world_of r) ⊆ L /\
  (forall u, u ∉ L -> records_of u (world_of r) = []) /\
  (forall u, u ∈ L -> u ∈ tracked w ->
             records_of u (world_of r) = records_of u w) /\
  (outcome_of r = Returned tt -> tracked (world_of r) = L).
Proof.
  intros r. subst r.
  destruct (update_probation_users_any L w) as (Hout & new & Htable & Husers & Hall).
  assert (Hsub : tracked (world_of (update_probation_users clock L w)) ⊆ L).
  { intros u Hu. apply elem_of_tracked in Hu. rewrite Htable, fmap_app in Hu.
    apply elem_of_app in Hu as [Hu|Hu];
      apply list_elem_of_fmap in Hu as (x & -> & Hx).
    - now apply list_elem_of_filter in Hx as [Hx _].
    - apply Husers in Hx. now apply elem_of_difference in Hx as [Hx _]. }
  split; [exact Hout|]. split; [exact Hsub|]. split; [|split].
  - intros u Hu. apply records_of_nil. intros Hin. exact (Hu (Hsub u Hin)).
  - intros u HL HT. unfold records_of. rewrite Htable, filter_app, list_filter_filter.
    rewrite (filter_none _ new), app_nil_r.
    + apply list_filter_iff. intros x. split; [tauto|]. intros ->. tauto.
    + intros x Hx Heq. apply Husers, elem_of_difference in Hx as [_ Hx].
      subst u. exact (Hx HT).
  - intros Hret. apply set_eq. intros u. split; [apply Hsub|]. intros Hu.
    apply elem_of_tracked. rewrite Htable, fmap_app, elem_of_app, (Hall Hret).
    destruct (decide (u ∈ tracked w)) as [HT|HT].
    + left. apply elem_of_tracked, list_elem_of_fmap in HT as (x & -> & Hx).
      apply list_elem_of_fmap_2. now apply list_elem_of_filter.
    + right. now apply elem_of_elements, elem_of_difference.
Qed.

(** X8.  When every live user is already tracked the pass inserts nothing:
    it returns without reading the clock, whatever timestamps the table
    holds, keeps exactly the rows of the live users, and when the tracked
    set is the live set it leaves the world, log included, as it was. *)
Theorem update_probation_users_no_missing (L : gset Z) (w : world) :
  L ⊆ tracked w ->
  let r := update_probation_users clock L w in
  outcome_of r = Returned tt /\
  users_in_role (world_of r) = filter (fun x => user x ∈ L) (users_in_role w) /\
  ticks (world_of r) = ticks w /\
  tracked (world_of r) = L /\
  (tracked w ⊆ L -> world_of r = w).
Proof.
  intros Hsub r. subst r. rewrite update_probation_users_unfold.
  assert (Hnone : L ∖ tracked w = ∅) by now apply difference_subseteq_empty.
  rewrite Hnone, elements_empty. cbn [for_each]. unfold ret, outcome_of, world_of.
  cbn [fst snd users_in_role ticks].
  split; [reflexivity|]. split; [reflexivity|]. split; [reflexivity|]. split.
  - apply set_eq. intros u. rewrite elem_of_tracked. cbn [users_in_role].
    rewrite list_elem_of_fmap. split.
    + intros (x & -> & Hx). now apply list_elem_of_filter in Hx as [Hx _].
    + intros Hu. pose proof (Hsub u Hu) as HT.
      apply elem_of_tracked, list_elem_of_fmap in HT as (x & -> & Hx).
      exists x. split; [reflexivity|]. now apply list_elem_of_filter.
  - intros Hsup.
    assert (Hstale : tracked w ∖ L = ∅) by now apply difference_subseteq_empty.
    rewrite Hstale, elements_empty. cbn [fmap list_fmap]. rewrite app_nil_r.
    rewrite filter_all.
    + now destruct w.
    + intros x Hx. apply Hsup, elem_of_tracked. now apply list_elem_of_fmap_2.
Qed.

(** A loop of insertions that returns read a free second at every turn. *)
Lemma for_each_add_returned (us : list Z) (w : world) :
  outcome_of (for_each us (add_user_to_db clock) w) = Returned tt ->
  NoDup (clock <$> seq (ticks w) (length us)) /\
  (forall d, d ∈ clock <$> seq (ticks w) (length us) ->
             d ∉ date <$> users_in_role w).
Proof.
  revert w. induction us as [|u us IH]; intros w Hret.
  - cbn. split; [apply NoDup_nil_2|]. intros d Hd. now apply not_elem_of_nil in Hd.
  - cbn [for_each] in Hret. unfold bind in Hret.
    destruct (decide (u ∈ user <$> users_in_role w
                      \/ clock (ticks w) ∈ date <$> users_in_role w)) as [Hrej|Hacc].
    { rewrite add_user_to_db_rejected in Hret by exact Hrej. discriminate. }
    rewrite add_user_to_db_accepted in Hret by tauto.
    apply IH in Hret as [Hnd Hfree]. cbn [ticks users_in_role] in Hnd, Hfree.
    cbn [length seq]. rewrite fmap_cons. split.
    + apply NoDup_cons. split; [|exact Hnd]. intros Hin.
      apply (Hfree _ Hin). rewrite fmap_app, elem_of_app. right. cbn. left.
    + intros d Hd. apply elem_of_cons in Hd as [->|Hd]; [tauto|].
      intros Hin. apply (Hfree d Hd). rewrite fmap_app, elem_of_app. now left.
Qed.

(** X16.  The pass returns exactly when the seconds its insertions read are
    free: they differ from one another and from the timestamp of every
    record the pass keeps.  Otherwise it raises the uniqueness error. *)
Theorem update_probation_users_returns_iff (L : gset Z) (w : world) :
  (outcome_of (update_probation_users clock L w) = Returned tt <->
   NoDup (insertion_times clock L w) /\
   (forall r, r ∈ users_in_role w -> user r ∈ L ->
              date r ∉ insertion_times clock L w)) /\
  (~ (NoDup (insertion_times clock L w) /\
      (forall r, r ∈ users_in_role w -> user r ∈ L ->
                 date r ∉ insertion_times clock L w)) ->
   outcome_of (update_probation_users clock L w) = Raised IntegrityError).
Proof.
  assert (Hiff : outcome_of (update_probation_users clock L w) = Returned tt <->
                 NoDup (insertion_times clock L w) /\
                 (forall r, r ∈ users_in_role w -> user r ∈ L ->
                            date r ∉ insertion_times clock L w)).
  { unfold insertion_times. split.
    - rewrite update_probation_users_unfold. intros Hret.
      apply for_each_add_returned in Hret as [Hnd Hfree].
      cbn [ticks users_in_role] in Hnd, Hfree. split; [exact Hnd|].
      intros r Hr HL Hin. apply (Hfree _ Hin).
      apply list_elem_of_fmap_2. now apply list_elem_of_filter.
    - intros [Hnd Hfree]. now rewrite update_probation_users_run. }
  split; [exact Hiff|]. intros Hnot.
  destruct (update_probation_users_any L w) as ([Hret|Hraised] & _);
    [|exact Hraised].
  destruct Hnot. now apply Hiff.
Qed.

Lemma update_probation_users_returned (L : gset Z) (w w1 : world) :
  update_probation_users clock L w = (Returned tt, w1) -> tracked w1 = L.
Proof.
  intros Hrun.
  destruct (update_probation_users_any L w) as (_ & new & Htable & Husers & Hall).
  rewrite Hrun in Htable, Hall. unfold outcome_of, world_of in *.
  cbn [fst snd] in *. specialize (Hall eq_refl).
  apply set_eq. intros u. rewrite elem_of_tracked, Htable, fmap_app, elem_of_app, Hall.
  rewrite elem_of_elements, elem_of_difference, list_elem_of_fmap. split.
  - intros [(x & -> & Hx)|[Hu _]]; [|exact Hu].
    now apply list_elem_of_filter in Hx as [Hx _].
  - intros Hu. destruct (decide (u ∈ tracked w)) as [HT|HT]; [left|now right].
    apply elem_of_tracked, list_elem_of_fmap in HT as (x & -> & Hx).
    exists x. split; [reflexivity|]. now apply list_elem_of_filter.
Qed.

Lemma update_probation_users_in_sync (w : world) :
  update_probation_users clock (tracked w) w = (Returned tt, w).
Proof.
  rewrite update_probation_users_unfold.
  rewrite difference_subseteq_empty by reflexivity.
  rewrite elements_empty. cbn [for_each fmap list_fmap]. unfold ret.
  rewrite app_nil_r, filter_all; [now destruct w|].
  intros x Hx. apply elem_of_tracked. now apply list_elem_of_fmap_2.
Qed.

(** X9.  A pass that returned has nothing left to do: run again for the same
    live set, at once and whatever the clock reads, it returns and leaves
    the world, log included, as the first pass left it. *)
Theorem update_probation_users_twice (L : gset Z) (w w1 : world) :
  update_probation_users clock L w = (Returned tt, w1) ->
  update_probation_users clock L w1 = (Returned tt, w1).
Proof.
  intros Hrun. rewrite <- (update_probation_users_returned L w w1 Hrun) at 1.
  apply update_probation_users_in_sync.
Qed.

(** X10.  A reconciliation cycle never lets a platform exception out: it
    returns or raises the uniqueness error; and when it returns, the tracked
    set is the member set of the last guild that answered the fetch of the
    monitored role, or the one there was when no guild answered. *)
Theorem scan_users_returns_last_fetched (guilds : list Guild) (w : world) :
  let r := scan_users clock role_id_monitored guilds w in
  (outcome_of r = Returned tt \/ outcome_of r = Raised IntegrityError) /\
  (outcome_of r = Returned tt ->
   tracked (world_of r) = last_fetched role_id_monitored guilds (tracked w)).
Proof.
  cbn zeta. revert w. induction guilds as [|g gs IH]; intros w.
  - split; [now left|reflexivity].
  - rewrite scan_users_cons. cbn [last_fetched foldl].
    unfold except_discord, bind, await_fetch.
    destruct (fetch_role g role_id_monitored) as [role|e]; [|apply IH].
    fold (member_ids role).
    destruct (update_probation_users_any (member_ids role) w) as ([Hout|Hout] & _);
      destruct (update_probation_users clock (member_ids role) w)
        as [[[]|e] w1] eqn:Hrun;
      unfold outcome_of in Hout; cbn [fst] in Hout; try discriminate.
    + rewrite <- (update_probation_users_returned _ _ _ Hrun). apply IH.
    + injection Hout as ->. split; [now right|discriminate].
Qed.

End Pass.

(** ** The promotion cycle and the listener, in full *)

Section Cycle.

Variable clock : nat -> Z.
Variable role_id_monitored : Z.
Variable role_id_validated : Z.

Lemma promote_guild_skip (ready_users : gset Z) (guild : Guild) (w : world) :
  (exists e, fetch_role guild role_id_monitored = Failed e) \/
  (exists e, fetch_role guild role_id_validated = Failed e) ->
  except_discord (
    let* role := await_fetch (fetch_role guild role_id_monitored) in
    let* target_role := await_fetch (fetch_role guild role_id_validated) in
    for_each (members role) (fun member =>
      for_each (elements ready_users) (fun user_id =>
        if decide (member_id member = user_id)
        then remove_from_db user_id
        else ret tt))) w = (Returned tt, w).
Proof.
  intros Hfail. unfold except_discord, bind, await_fetch.
  destruct (fetch_role guild role_id_monitored) as [role|e1]; [|reflexivity].
  destruct Hfail as [[e He]|[e He]]; [discriminate|]. now rewrite He.
Qed.

Lemma for_each_skip {A} (body : A -> M unit) (x : A) (l1 l2 : list A) (w : world) :
  (forall w0, body x w0 = (Returned tt, w0)) ->
  for_each (l1 ++ x :: l2) body w = for_each (l1 ++ l2) body w.
Proof.
  intros Hx. revert w. induction l1 as [|a l1 IH]; intros w;
    cbn [app for_each]; unfold bind.
  - now rewrite Hx.
  - destruct (body a w) as [[[]|e] w1]; [apply IH|reflexivity].
Qed.

Lemma promote_users_unfold (guilds : list Guild) (w : world) :
  promote_users clock role_id_monitored role_id_validated guilds w =
  let ready_users : gset Z :=
    list_to_set (user <$> filter (fun r => date r < clock (ticks w) - 7 * 86400)
                            (users_in_role w)) in
  let w1 := World (users_in_role w) (journal w) (issued w) (S (ticks w)) in
  if (size ready_users <? 1)%nat then (Returned tt, w1)
  else
    for_each guilds (fun guild =>
      except_discord (
        let* role := await_fetch (fetch_role guild role_id_monitored) in
        let* target_role := await_fetch (fetch_role guild role_id_validated) in
        for_each (members role) (fun member =>
          for_each (elements ready_users) (fun user_id =>
            if decide (member_id member = user_id)
            then remove_from_db user_id
            else ret tt)))) w1.
Proof.
  unfold promote_users. unfold bind at 1. rewrite get_ready_users_run.
  cbn zeta. now destruct (size _ <? 1)%nat.
Qed.

(** X11.  A guild for which the fetch of the monitored role or of the
    validated role fails is passed over by the promotion cycle: the cycle
    over the guilds is the cycle over the other guilds, so no member of that
    guild loses a record through it and the error goes no further. *)
Theorem promote_users_isolates_failed_guild (g : Guild) :
  (exists e, fetch_role g role_id_monitored = Failed e) \/
  (exists e, fetch_role g role_id_validated = Failed e) ->
  forall (gs1 gs2 : list Guild) (w : world),
    promote_users clock role_id_monitored role_id_validated (gs1 ++ g :: gs2) w =
    promote_users clock role_id_monitored role_id_validated (gs1 ++ gs2) w.
Proof.
  intros Hfail gs1 gs2 w. rewrite !promote_users_unfold. cbn zeta.
  destruct (size _ <? 1)%nat; [reflexivity|].
  apply for_each_skip. intros w0. now apply promote_guild_skip.
Qed.

(** X12.  The promotion cycle always returns, after one reading of the
    clock.  A user who has a record older than seven days at that reading
    and is listed by the monitored role of a guild whose two roles are
    fetched has no record afterwards; the records of every other user are
    the ones there were. *)
Theorem promote_users_exact (guilds : list Guild) (w : world) (u : Z) :
  let r := promote_users clock role_id_monitored role_id_validated guilds w in
  let due :=
    (exists x, x ∈ users_in_role w /\ user x = u /\
               date x < clock (ticks w) - 7 * 86400) /\
    (exists guild role target_role,
       guild ∈ guilds /\
       fetch_role guild role_id_monitored = Found role /\
       fetch_role guild role_id_validated = Found target_role /\
       u ∈ member_ids role) in
  outcome_of r = Returned tt /\
  ticks (world_of r) = S (ticks w) /\
  (due -> records_of u (world_of r) = []) /\
  (~ due -> records_of u (world_of r) = records_of u w).
Proof.
  intros r due. subst r.
  destruct (promote_users_run clock role_id_monitored role_id_validated
              guilds w _ _ (get_ready_users_run clock w)) as (w' & -> & Hrem).
  unfold outcome_of, world_of. cbn [fst snd].
  match type of Hrem with removal ?S0 _ _ => set (S := S0) in * end.
  assert (Hdue : u ∈ S <-> due).
  { subst S due. rewrite promoted_ready.
    now rewrite (elem_of_ready clock u w _ _ (get_ready_users_run clock w)). }
  split; [reflexivity|]. split; [|split].
  - now destruct Hrem as (_ & _ & -> & _).
  - intros Hd. apply records_of_nil.
    apply (not_tracked_removal S u _ _ Hrem). now apply Hdue.
  - intros Hd. rewrite (records_of_removal S u _ _ Hrem); [reflexivity|].
    intros Hin. now apply Hd, Hdue.
Qed.

(** X13.  The listener acts on the monitored role alone: an update that has
    the monitored role on both sides, or on neither, returns and leaves the
    world, log included, as it was, whatever other roles came or went. *)
Theorem on_member_update_ignores_other_roles (before after : Member) (w : world) :
  (role_id_monitored ∈ member_roles before <->
   role_id_monitored ∈ member_roles after) ->
  on_member_update clock role_id_monitored before after w = (Returned tt, w).
Proof.
  intros Hsame. unfold on_member_update.
  destruct (decide (member_roles before = member_roles after)); [reflexivity|].
  unfold bind at 1. rewrite for_each_only_absent.
  - apply for_each_only_absent.
    rewrite elem_of_elements, elem_of_difference, !elem_of_list_to_set. tauto.
  - rewrite elem_of_elements, elem_of_difference, !elem_of_list_to_set. tauto.
Qed.

(** X14.  The ready users are tracked users, and waiting never makes a user
    unready: on the same table, every user ready at one reading of the clock
    is ready at any reading that is not earlier. *)
Theorem ready_users_grow (w1 w2 : world) (R1 R2 : gset Z) :
  users_in_role w1 = users_in_role w2 ->
  clock (ticks w1) <= clock (ticks w2) ->
  outcome_of (get_ready_users clock w1) = Returned R1 ->
  outcome_of (get_ready_users clock w2) = Returned R2 ->
  R1 ⊆ R2 /\ R2 ⊆ tracked w2.
Proof.
  intros Htable Hclock H1 H2.
  assert (Hc1 := fun u => elem_of_ready clock u w1 R1 _
                   (eq_trans (get_ready_users_run clock w1)
                      (f_equal (fun o => (o, _)) H1))).
  assert (Hc2 := fun u => elem_of_ready clock u w2 R2 _
                   (eq_trans (get_ready_users_run clock w2)
                      (f_equal (fun o => (o, _)) H2))).
  split.
  - intros u Hu. apply Hc1 in Hu as (x & Hx & Heq & Hd). apply Hc2.
    exists x. rewrite <- Htable. split; [exact Hx|]. split; [exact Heq|lia].
  - intros u Hu. apply Hc2 in Hu as (x & Hx & <- & _).
    apply elem_of_tracked. now apply list_elem_of_fmap_2.
Qed.

Lemma on_member_update_granted (before after : Member) (w : world) :
  role_id_monitored ∈ member_roles after ->
  role_id_monitored ∉ member_roles before ->
  on_member_update clock role_id_monitored before after w =
  add_user_to_db clock (member_id after) w.
Proof.
  intros Hin Hout. unfold on_member_update. rewrite decide_False by congruence.
  unfold bind at 1. rewrite for_each_only_present.
  - destruct (add_user_to_db clock (member_id after) w) as [[[]|e] w'];
      [|reflexivity].
    apply for_each_only_absent.
    rewrite elem_of_elements, elem_of_difference, !elem_of_list_to_set. tauto.
  - apply NoDup_elements.
  - rewrite elem_of_elements, elem_of_difference, !elem_of_list_to_set. tauto.
Qed.

Lemma on_member_update_not_granted (before after : Member) (w : world) :
  ~ (role_id_monitored ∈ member_roles after /\
     role_id_monitored ∉ member_roles before) ->
  outcome_of (on_member_update clock role_id_monitored before after w)
    = Returned tt.
Proof.
  intros Hng. unfold on_member_update.
  destruct (decide (member_roles before = member_roles after)); [reflexivity|].
  unfold bind at 1. rewrite for_each_only_absent.
  2:{ rewrite elem_of_elements, elem_of_difference, !elem_of_list_to_set. tauto. }
  match goal with
  | |- context [for_each (elements ?X) _ _] =>
      destruct (decide (role_id_monitored ∈ X)) as [Hrm|Hnrm]
  end.
  - rewrite for_each_only_present;
      [reflexivity|apply NoDup_elements|now apply elem_of_elements].
  - now rewrite for_each_only_absent by now rewrite elem_of_elements.
Qed.

(** X15.  The listener returns or raises the uniqueness error, and it raises
    exactly when the update grants the monitored role to a member who is
    already tracked or at a second some record carries; the table is then
    the one there was. *)
Theorem on_member_update_raises_iff (before after : Member) (w : world) :
  let r := on_member_update clock role_id_monitored before after w in
  let granted :=
    role_id_monitored ∈ member_roles after /\
    role_id_monitored ∉ member_roles before in
  (outcome_of r = Returned tt \/ outcome_of r = Raised IntegrityError) /\
  (outcome_of r = Raised IntegrityError <->
   granted /\ (member_id after ∈ tracked w \/
               clock (ticks w) ∈ date <$> users_in_role w)) /\
  (outcome_of r = Raised IntegrityError ->
   users_in_role (world_of r) = users_in_role w).
Proof.
  intros r granted. subst r granted. rewrite elem_of_tracked.
  destruct (decide (role_id_monitored ∈ member_roles after /\
                    role_id_monitored ∉ member_roles before)) as [[Hin Hout]|Hng].
  - rewrite (on_member_update_granted before after w Hin Hout).
    destruct (decide (member_id after ∈ user <$> users_in_role w
                      \/ clock (ticks w) ∈ date <$> users_in_role w)) as [Hrej|Hacc].
    + rewrite add_user_to_db_rejected by exact Hrej.
      unfold outcome_of, world_of. cbn [fst snd users_in_role].
      split; [now right|]. split; [tauto|reflexivity].
    + rewrite add_user_to_db_accepted by tauto.
      unfold outcome_of. cbn [fst]. split; [now left|]. split; [|discriminate].
      split; [discriminate|tauto].
  - rewrite (on_member_update_not_granted before after w Hng).
    split; [now left|]. split; [|discriminate].
    split; [discriminate|tauto].
Qed.

End Cycle.

(** ** The further statements on the scenarios *)

Lemma add_then_remove_restores_witness :
  (42 ∉ tracked ledger_234) /\
  users_in_role
    (world_of (remove_from_db 42 (world_of (add_user_to_db ticking 42 ledger_234))))
  = users_in_role ledger_234.
Proof.
  assert (Hu : 42 ∉ tracked ledger_234) by by_evaluation.
  split; [exact Hu|].
  exact (add_then_remove_restores ticking 42 ledger_234 Hu).
Defined.

Lemma unique_indexes_kept_witness :
  well_indexed ledger_234 /\
  well_indexed (world_of (scan_users same_second monitored
                            [guild_of [1; 2]; guild_of [3]] ledger_234)) /\
  well_indexed (world_of (promote_users ticking monitored validated
                            [guild_of [2; 3]] ledger_234)).
Proof.
  assert (Hw : well_indexed ledger_234) by (split; by_evaluation).
  destruct (unique_indexes_kept ticking monitored validated ledger_234 Hw)
    as (_ & _ & _ & _ & Hpromote & _).
  destruct (unique_indexes_kept same_second monitored validated ledger_234 Hw)
    as (_ & _ & _ & Hscan & _).
  split; [exact Hw|]. split; [apply Hscan|apply Hpromote].
Defined.

Lemma update_probation_users_no_missing_witness :
  let L : gset Z := {[2; 3]} in
  let r := update_probation_users same_second L ledger_234 in
  L ⊆ tracked ledger_234 /\
  (outcome_of r = Returned tt /\
   users_in_role (world_of r)
     = filter (fun x => user x ∈ L) (users_in_role ledger_234) /\
   ticks (world_of r) = ticks ledger_234 /\
   tracked (world_of r) = L /\
   (tracked ledger_234 ⊆ L -> world_of r = ledger_234)).
Proof.
  intros L r.
  assert (Hsub : L ⊆ tracked ledger_234) by by_evaluation.
  split; [exact Hsub|].
  exact (update_probation_users_no_missing same_second L ledger_234 Hsub).
Defined.

Lemma update_probation_users_twice_witness :
  let L : gset Z := {[1; 2; 3]} in
  let w1 := world_of (update_probation_users ticking L ledger_234) in
  update_probation_users ticking L ledger_234 = (Returned tt, w1) /\
  update_probation_users ticking L w1 = (Returned tt, w1).
Proof.
  intros L w1.
  assert (Hrun : update_probation_users ticking L ledger_234 = (Returned tt, w1))
    by (vm_compute; reflexivity).
  split; [exact Hrun|].
  exact (update_probation_users_twice ticking L ledger_234 w1 Hrun).
Defined.

Lemma promote_users_isolates_failed_guild_witness :
  ((exists e, fetch_role (guild_without_validated [42]) monitored = Failed e) \/
   (exists e, fetch_role (guild_without_validated [42]) validated = Failed e)) /\
  (forall (gs1 gs2 : list Guild) (w : world),
     promote_users ticking monitored validated
       (gs1 ++ guild_without_validated [42] :: gs2) w =
     promote_users ticking monitored validated (gs1 ++ gs2) w).
Proof.
  assert (Hfail :
    (exists e, fetch_role (guild_without_validated [42]) monitored = Failed e) \/
    (exists e, fetch_role (guild_without_validated [42]) validated = Failed e)).
  { right. exists HTTPException. reflexivity. }
  split; [exact Hfail|].
  exact (promote_users_isolates_failed_guild ticking monitored validated
           (guild_without_validated [42]) Hfail).
Defined.

Lemma on_member_update_ignores_other_roles_witness :
  let before := member 42 [1; monitored] in
  let after := member 42 [monitored; 2] in
  (monitored ∈ member_roles before <-> monitored ∈ member_roles after) /\
  on_member_update ticking monitored before after (just_added ticking)
    = (Returned tt, just_added ticking).
Proof.
  intros before after.
  assert (Hsame : monitored ∈ member_roles before <-> monitored ∈ member_roles after).
  { split; intros _; by_evaluation. }
  split; [exact Hsame|].
  exact (on_member_update_ignores_other_roles ticking monitored before after
           (just_added ticking) Hsame).
Defined.

Lemma ready_users_grow_witness :
  users_in_role seven_days = users_in_role (World (users_in_role seven_days) [] [] 1) /\
  ticking (ticks seven_days) <= ticking 1 /\
  outcome_of (get_ready_users ticking seven_days) = Returned ∅ /\
  outcome_of (get_ready_users ticking (World (users_in_role seven_days) [] [] 1))
    = Returned {[42]} /\
  ((∅ : gset Z) ⊆ {[42]} /\
   ({[42]} : gset Z) ⊆ tracked (World (users_in_role seven_days) [] [] 1)).
Proof.
  assert (H1 : outcome_of (get_ready_users ticking seven_days) = Returned ∅)
    by (vm_compute; reflexivity).
  assert (H2 : outcome_of (get_ready_users ticking
                             (World (users_in_role seven_days) [] [] 1))
               = Returned {[42]}) by (vm_compute; reflexivity).
  assert (Hc : ticking (ticks seven_days) <= ticking 1) by (vm_compute; discriminate).
  split; [reflexivity|]. split; [exact Hc|]. split; [exact H1|]. split; [exact H2|].
  exact (ready_users_grow ticking seven_days
           (World (users_in_role seven_days) [] [] 1) ∅ {[42]} eq_refl Hc H1 H2).
Defined.


(** ** The cycle around one owner of the monitored role, and what the index
       on [date] costs *)

Section Owner.

Variable clock : nat -> Z.
Variable role_id_monitored : Z.

Lemma scan_users_all_failed (gs : list Guild) (w : world) :
  (forall g, g ∈ gs -> exists e, fetch_role g role_id_monitored = Failed e) ->
  scan_users clock role_id_monitored gs w = (Returned tt, w).
Proof.
  induction gs as [|g gs IH]; intros Hall; [reflexivity|].
  destruct (Hall g ltac:(left)) as [e He].
  rewrite scan_users_cons, (scan_users_skip clock role_id_monitored g e w He).
  apply IH. intros g' Hg'. apply Hall. now right.
Qed.

(** The turn of a guild that answers the fetch is the pass for its members:
    the pass raises no exception the [except] clause would catch. *)
Lemma scan_users_found (g : Guild) (role : Role) (gs : list Guild) (w : world) :
  fetch_role g role_id_monitored = Found role ->
  scan_users clock role_id_monitored (g :: gs) w =
  (update_probation_users clock (member_ids role) ;;;
   scan_users clock role_id_monitored gs) w.
Proof.
  intros Hf. rewrite scan_users_cons.
  unfold except_discord, bind, await_fetch. rewrite Hf. fold (member_ids role).
  destruct (update_probation_users_any clock (member_ids role) w)
    as ([Hout|Hout] & _);
    destruct (update_probation_users clock (member_ids role) w) as [[[]|e] w1];
    unfold outcome_of in Hout; cbn [fst] in Hout; try discriminate;
    [reflexivity|].
  injection Hout as ->. reflexivity.
Qed.

Lemma scan_users_single_owner
    (gs1 gs2 : list Guild) (g : Guild) (role : Role) (w : world) :
  fetch_role g role_id_monitored = Found role ->
  (forall g', g' ∈ gs1 ++ gs2 ->
              exists e, fetch_role g' role_id_monitored = Failed e) ->
  scan_users clock role_id_monitored (gs1 ++ g :: gs2) w =
  update_probation_users clock (member_ids role) w.
Proof.
  intros Hf Hfail. rewrite scan_users_app, scan_users_all_failed.
  2:{ intros g' Hg'. apply Hfail, elem_of_app. now left. }
  rewrite (scan_users_found g role gs2 w Hf). unfold bind.
  destruct (update_probation_users clock (member_ids role) w) as [[[]|e] w1];
    [|reflexivity].
  apply scan_users_all_failed. intros g' Hg'. apply Hfail, elem_of_app. now right.
Qed.

(** What a pass leaves of the records, whether it returns or raises. *)
Lemma update_probation_users_records (L : gset Z) (w : world) :
  (forall u, u ∉ L ->
     records_of u (world_of (update_probation_users clock L w)) = []) /\
  (forall u, u ∈ L -> u ∈ tracked w ->
     records_of u (world_of (update_probation_users clock L w)) = records_of u w).
Proof.
  destruct (update_probation_users_any clock L w)
    as (_ & new & Htable & Husers & _).
  split.
  - intros u Hu. apply records_of_nil. intros Hin.
    apply elem_of_tracked in Hin. rewrite Htable, fmap_app in Hin.
    apply elem_of_app in Hin as [Hin|Hin];
      apply list_elem_of_fmap in Hin as (x & -> & Hx).
    + now apply list_elem_of_filter in Hx as [Hx _].
    + apply Husers in Hx. now apply elem_of_difference in Hx as [Hx _].
  - intros u HL HT. unfold records_of.
    rewrite Htable, filter_app, list_filter_filter.
    rewrite (filter_none _ new), app_nil_r.
    + apply list_filter_iff. intros x. split; [tauto|]. intros ->. tauto.
    + intros x Hx Heq. apply Husers, elem_of_difference in Hx as [_ Hx].
      subst u. exact (Hx HT).
Qed.

(** A loop of insertions that does not return leaves one of its users
    without a record. *)
Lemma for_each_add_raised (us : list Z) (w : world) :
  NoDup us ->
  (forall u, u ∈ us -> u ∉ user <$> users_in_role w) ->
  outcome_of (for_each us (add_user_to_db clock) w) <> Returned tt ->
  exists u, u ∈ us /\
    (u ∉ user <$> users_in_role (world_of (for_each us (add_user_to_db clock) w))).
Proof.
  revert w. induction us as [|u us IH]; intros w Hnd Hnew Hraised.
  - now destruct Hraised.
  - apply NoDup_cons in Hnd as [Hu Hnd].
    cbn [for_each] in *. unfold bind in *.
    destruct (decide (u ∈ user <$> users_in_role w
                      \/ clock (ticks w) ∈ date <$> users_in_role w)) as [Hrej|Hacc].
    + rewrite add_user_to_db_rejected by exact Hrej.
      exists u. split; [left|]. unfold world_of. cbn [snd users_in_role].
      apply Hnew. left.
    + rewrite add_user_to_db_accepted in * by tauto.
      match goal with
      | |- context [for_each us _ ?w1] =>
          destruct (IH w1 Hnd) as (u' & Hu' & Hout); [|exact Hraised|]
      end.
      * intros v Hv. cbn [users_in_role]. rewrite fmap_app, elem_of_app.
        intros [Hin|Hin]; [revert Hin; apply Hnew; now right|].
        cbn in Hin. apply list_elem_of_singleton in Hin. congruence.
      * exists u'. split; [now right|exact Hout].
Qed.

Lemma update_probation_users_raised (L : gset Z) (w : world) :
  outcome_of (update_probation_users clock L w) <> Returned tt ->
  exists u, u ∈ L /\ (u ∉ tracked w) /\
            (u ∉ tracked (world_of (update_probation_users clock L w))).
Proof.
  rewrite update_probation_users_unfold. intros Hraised.
  apply for_each_add_raised in Hraised as (u & Hu & Hout).
  - apply elem_of_elements, elem_of_difference in Hu as [HL HT].
    exists u. split; [exact HL|]. split; [exact HT|].
    rewrite elem_of_tracked. exact Hout.
  - apply NoDup_elements.
  - intros u Hu Hin. apply elem_of_elements, elem_of_difference in Hu as [_ Hu].
    apply Hu. cbn [users_in_role] in Hin.
    apply list_elem_of_fmap in Hin as (x & -> & Hx).
    apply list_elem_of_filter in Hx as [_ Hx].
    apply elem_of_tracked. now apply list_elem_of_fmap_2.
Qed.


(** C3 on the code.  When at least two live users are not tracked and the
    first two readings of the clock in the pass fall in the same second, the
    pass raises the uniqueness error of the index on [date] and stops: some
    live user is left without a record, and the tracked set is not the live
    set. *)
Theorem reconciliation_stops_in_one_second (L : gset Z) (w : world) :
  (2 <= size (L ∖ tracked w))%nat ->
  clock (S (ticks w)) = clock (ticks w) ->
  let r := update_probation_users clock L w in
  outcome_of r = Raised IntegrityError /\
  (exists u, u ∈ L /\ (u ∉ tracked (world_of r))) /\
  tracked (world_of r) <> L.
Proof.
  intros Hsize Hsame r. subst r.
  assert (Hnot : outcome_of (update_probation_users clock L w) <> Returned tt).
  { rewrite update_probation_users_unfold. intros Hret.
    apply for_each_add_returned in Hret as [Hnd _]. cbn [ticks] in Hnd.
    change (length (elements (L ∖ tracked w)))
      with (size (L ∖ tracked w)) in Hnd.
    destruct (size (L ∖ tracked w)) as [|[|n]]; [lia..|].
    cbn [seq] in Hnd. rewrite !fmap_cons in Hnd.
    apply NoDup_cons in Hnd as [Hfirst _]. apply Hfirst. rewrite Hsame. left. }
  assert (Hleft : exists u, u ∈ L /\
            (u ∉ tracked (world_of (update_probation_users clock L w)))).
  { destruct (update_probation_users_raised L w Hnot) as (u & HL & _ & Hout).
    now exists u. }
  split; [|split; [exact Hleft|]].
  - destruct (update_probation_users_any clock L w) as ([Hret|Hraised] & _);
      [contradiction|exact Hraised].
  - intros Heq. destruct Hleft as (u & HL & Hout). apply Hout. now rewrite Heq.
Qed.

(** C8.  A guild whose fetch of the monitored role fails is passed over: its
    turn returns with the world as it was, the exception goes no further,
    and the cycle over the guilds is the cycle over the other guilds.  The
    guilds after it are processed: the turn of a next guild that answers is
    the pass for its members, which leaves no record of a user outside
    them, keeps the records of the tracked ones and, when it returns, makes
    them the tracked set. *)
Theorem scan_users_isolates_failed_guild (g : Guild) (e : discord_exc) (w : world) :
  fetch_role g role_id_monitored = Failed e ->
  scan_users clock role_id_monitored [g] w = (Returned tt, w) /\
  (forall (gs1 gs2 : list Guild) (w1 : world),
     scan_users clock role_id_monitored (gs1 ++ g :: gs2) w1 =
     scan_users clock role_id_monitored (gs1 ++ gs2) w1) /\
  (forall (g2 : Guild) (role2 : Role) (gs : list Guild) (w1 : world),
     fetch_role g2 role_id_monitored = Found role2 ->
     scan_users clock role_id_monitored (g :: g2 :: gs) w1 =
     (update_probation_users clock (member_ids role2) ;;;
      scan_users clock role_id_monitored gs) w1) /\
  (forall (g2 : Guild) (role2 : Role) (w1 : world),
     fetch_role g2 role_id_monitored = Found role2 ->
     let r := scan_users clock role_id_monitored [g; g2] w1 in
     (forall u, u ∉ member_ids role2 -> records_of u (world_of r) = []) /\
     (forall u, u ∈ member_ids role2 -> u ∈ tracked w1 ->
                records_of u (world_of r) = records_of u w1) /\
     (outcome_of r = Returned tt -> tracked (world_of r) = member_ids role2)).
Proof.
  intros Hf.
  assert (Hskip : forall gs w1,
            scan_users clock role_id_monitored (g :: gs) w1 =
            scan_users clock role_id_monitored gs w1).
  { intros gs w1.
    now rewrite scan_users_cons, (scan_users_skip clock role_id_monitored g e w1 Hf). }
  split; [apply Hskip|]. split; [|split].
  - intros gs1 gs2 w1. rewrite !scan_users_app.
    destruct (scan_users clock role_id_monitored gs1 w1) as [[[]|e1] w2];
      [apply Hskip|reflexivity].
  - intros g2 role2 gs w1 Hf2. rewrite Hskip. now apply scan_users_found.
  - intros g2 role2 w1 Hf2 r. subst r. rewrite Hskip.
    change (scan_users clock role_id_monitored [g2] w1)
      with (scan_users clock role_id_monitored ([] ++ g2 :: []) w1).
    rewrite (scan_users_single_owner [] [] g2 role2 w1 Hf2).
    2:{ intros g' Hg'. now apply not_elem_of_nil in Hg'. }
    destruct (update_probation_users_records (member_ids role2) w1)
      as [Hgone Hkept].
    split; [exact Hgone|]. split; [exact Hkept|].
    intros Hret.
    destruct (update_probation_users clock (member_ids role2) w1)
      as [[[]|e1] w2] eqn:Hrun; [|discriminate].
    exact (update_probation_users_returned clock _ _ _ Hrun).
Qed.

(** C5 on the code.  A notification that grants the monitored role to a
    member who has no record, at a second some record already carries, does
    not add the member: the insertion violates the unique index on [date],
    the listener raises the uniqueness error, and the member is not
    tracked. *)
Theorem grant_in_taken_second_not_tracked (before after : Member) (w : world) :
  role_id_monitored ∈ member_roles after ->
  role_id_monitored ∉ member_roles before ->
  member_id after ∉ tracked w ->
  clock (ticks w) ∈ date <$> users_in_role w ->
  let r := on_member_update clock role_id_monitored before after w in
  outcome_of r = Raised IntegrityError /\
  users_in_role (world_of r) = users_in_role w /\
  (member_id after ∉ tracked (world_of r)).
Proof.
  intros Hin Hout Hnew Htaken r. subst r.
  rewrite (on_member_update_granted clock role_id_monitored before after w Hin Hout).
  rewrite add_user_to_db_rejected by now right.
  unfold outcome_of, world_of. cbn [fst snd].
  split; [reflexivity|]. split; [reflexivity|].
  rewrite elem_of_tracked in *. exact Hnew.
Qed.

End Owner.

(** ** These statements on the scenarios *)



Lemma reconciliation_stops_in_one_second_witness :
  let L : gset Z := {[1; 2; 3]} in
  let w := World [Row 3 20; Row 4 30] [] [] 0 in
  let r := update_probation_users same_second L w in
  (2 <= size (L ∖ tracked w))%nat /\
  same_second (S (ticks w)) = same_second (ticks w) /\
  (outcome_of r = Raised IntegrityError /\
   (exists u, u ∈ L /\ (u ∉ tracked (world_of r))) /\
   tracked (world_of r) <> L).
Proof.
  intros L w r.
  assert (Hsize : (2 <= size (L ∖ tracked w))%nat) by (vm_compute; lia).
  split; [exact Hsize|]. split; [reflexivity|].
  exact (reconciliation_stops_in_one_second same_second L w Hsize eq_refl).
Defined.

Lemma grant_in_taken_second_not_tracked_witness :
  let before := member 5 [1] in
  let after := member 5 [1; monitored] in
  let w := just_added same_second in
  let r := on_member_update same_second monitored before after w in
  monitored ∈ member_roles after /\
  (monitored ∉ member_roles before) /\
  (5 ∉ tracked w) /\
  same_second (ticks w) ∈ date <$> users_in_role w /\
  (outcome_of r = Raised IntegrityError /\
   users_in_role (world_of r) = users_in_role w /\
   (5 ∉ tracked (world_of r))).
Proof.
  intros before after w r.
  assert (Hin : monitored ∈ member_roles after) by by_evaluation.
  assert (Hout : monitored ∉ member_roles before) by by_evaluation.
  assert (Hnew : member_id after ∉ tracked w) by by_evaluation.
  assert (Htaken : same_second (ticks w) ∈ date <$> users_in_role w)
    by by_evaluation.
  split; [exact Hin|]. split; [exact Hout|]. split; [exact Hnew|].
  split; [exact Htaken|].
  exact (grant_in_taken_second_not_tracked same_second monitored before after w
           Hin Hout Hnew Htaken).
Defined.

Lemma scan_users_isolates_failed_guild_witness :
  let role2 := {| role_id := monitored;
                  members := [member 2 [monitored]; member 3 [monitored];
                              member 5 [monitored]] |} in
  let r := scan_users same_second monitored
             [guild_without_roles; guild_of [2; 3; 5]] ledger_234 in
  fetch_role guild_without_roles monitored = Failed NotFound /\
  scan_users same_second monitored [guild_without_roles] ledger_234
    = (Returned tt, ledger_234) /\
  fetch_role (guild_of [2; 3; 5]) monitored = Found role2 /\
  r = update_probation_users same_second (member_ids role2) ledger_234 /\
  records_of 4 (world_of r) = [] /\
  records_of 2 (world_of r) = records_of 2 ledger_234 /\
  outcome_of r = Returned tt /\
  5 ∈ tracked (world_of r) /\
  tracked (world_of r) = member_ids role2.
Proof.
  intros role2 r.
  destruct (scan_users_isolates_failed_guild same_second monitored
              guild_without_roles NotFound ledger_234 eq_refl)
    as (Hskip & _ & Hnext & Hpass).
  destruct (Hpass (guild_of [2; 3; 5]) role2 ledger_234 eq_refl)
    as (Hgone & Hkept & Hall).
  assert (Hret : outcome_of r = Returned tt) by (vm_compute; reflexivity).
  split; [reflexivity|]. split; [exact Hskip|]. split; [reflexivity|].
  split; [exact (Hnext (guild_of [2; 3; 5]) role2 [] ledger_234 eq_refl)|].
  split; [apply Hgone; by_evaluation|].
  split; [apply Hkept; by_evaluation|].
  split; [exact Hret|].
  split; [by_evaluation|exact (Hall Hret)].
Defined.
